(** * signac-flow: contributor synchronisation and scoped process mutators

    A shallow embedding of two files of the repository:

    - [.sync-contributors.py]: the [Contributor] dataclass and the [sync]
      command that merges CITATION.cff / contributors.yaml into .zenodo.json;
    - [flow/util/misc.py]: the context managers [redirect_log],
      [add_path_to_environment_pythonpath], [add_cwd_to_environment_pythonpath]
      and [switch_to_directory].

    Python exceptions are values of [exn]; effectful code is written in a
    state-and-exception monad over an explicit state record; a generator-based
    context manager becomes a function of the scope body, the [yield] being the
    place where the body runs. *)

From stdpp Require Import gmap strings list fin_maps.
From Stdlib Require Import Ascii String DecimalString.

Local Open Scope stdpp_scope.
Set Warnings "-register-all".

(** ** Python runtime fragments shared by both files *)

Module Py.

(** The exception classes the two files can raise or let through;
    [UserError] stands for whatever the body of a [with] block raises. *)
Inductive exn : Type :=
  | KeyError (key : string)
  | TypeError
  | OSError
  | FileNotFoundError (path : string)
  | ParseError
  | UserError (msg : string).

(** The outcome of evaluating an expression: a value or a raised exception. *)
Inductive result (A : Type) : Type :=
  | Ok (a : A)
  | Raise (e : exn).
Arguments Ok {A} a.
Arguments Raise {A} e.

(** [[f(x) for x in xs]]: the comprehension stops at the first exception. *)
Fixpoint comprehension {A B} (f : A → result B) (xs : list A) : result (list B) :=
  match xs with
  | [] => Ok []
  | x :: xs' =>
      match f x with
      | Raise e => Raise e
      | Ok y =>
          match comprehension f xs' with
          | Raise e => Raise e
          | Ok ys => Ok (y :: ys)
          end
      end
  end.

(** A computation over a state [S]: the state after it and its outcome.  The
    state is kept when an exception is raised, so that handlers and [finally]
    blocks see the effects that happened before the raise. *)
Definition M (S A : Type) : Type := S → S * result A.

Definition ret {S A} (a : A) : M S A := λ s, (s, Ok a).
Definition raise {S A} (e : exn) : M S A := λ s, (s, Raise e).
Definition bind {S A B} (m : M S A) (k : A → M S B) : M S B :=
  λ s, match m s with
       | (s1, Ok a) => k a s1
       | (s1, Raise e) => (s1, Raise e)
       end.
Definition lift {S A} (r : result A) : M S A := λ s, (s, r).
Definition gets {S A} (f : S → A) : M S A := λ s, (s, Ok (f s)).
Definition modify {S} (f : S → S) : M S unit := λ s, (f s, Ok tt).

(** [try: m finally: fin].  The [finally] block always runs; when it raises,
    its exception replaces the pending outcome, otherwise the outcome of [m]
    (value or exception) stands. *)
Definition try_finally {S A} (m : M S A) (fin : M S unit) : M S A :=
  λ s, match m s with
       | (s1, r) =>
           match fin s1 with
           | (s2, Raise e) => (s2, Raise e)
           | (s2, Ok _) => (s2, r)
           end
       end.

(** [c in chars] for a character and a string. *)
Fixpoint char_in (c : ascii) (chars : string) : bool :=
  match chars with
  | EmptyString => false
  | String c' chars' => if Ascii.eqb c c' then true else char_in c chars'
  end.

Definition newline : string := String (ascii_of_nat 10) EmptyString.

(** Truthiness of an optional string: [None] and [''] are falsy. *)
Definition truthy (o : option string) : bool :=
  match o with
  | Some (String _ _) => true
  | _ => false
  end.

End Py.

Export Py.

Notation "'let!' x ':=' m 'in' k" := (bind m (λ x, k))
  (at level 10, x name, m at level 100, k at level 200, only parsing).
Notation "'do!' m 'in' k" := (bind m (λ _, k))
  (at level 10, m at level 100, k at level 200, only parsing).

(** ** [.sync-contributors.py] *)

Module SyncContributors.

(** *** Strings *)

(** [str.lstrip(chars)]: drops the leading characters that occur in [chars]. *)
Fixpoint lstrip (chars : string) (s : string) : string :=
  match s with
  | EmptyString => EmptyString
  | String c s' => if char_in c chars then lstrip chars s' else s
  end.

(** Removing a literal prefix, the operation [lstrip] is used for at line 37:
    [Some rest] when [s = prefix ++ rest]. *)
Fixpoint strip_prefix (prefix s : string) : option string :=
  match prefix, s with
  | EmptyString, _ => Some s
  | String p prefix', String c s' =>
      if Ascii.eqb p c then strip_prefix prefix' s' else None
  | String _ _, EmptyString => None
  end.

(** *** JSON values and Python dicts *)

(** Values of the [json] module.  Numbers are integers: [sync] creates none, and
    floating point is outside this model.  A dict is the list of its items in
    insertion order. *)
Inductive json : Type :=
  | JNull
  | JBool (b : bool)
  | JNum (n : Z)
  | JStr (s : string)
  | JArr (items : list json)
  | JObj (items : list (string * json)).

(** [d[k]] as a lookup: the value of the first (and, in a dict, only) item. *)
Fixpoint dict_get (k : string) (d : list (string * json)) : option json :=
  match d with
  | [] => None
  | (k', v) :: d' => if String.eqb k' k then Some v else dict_get k d'
  end.

(** [d[k] = v]: an existing key keeps its position, a new key goes last. *)
Fixpoint dict_set (k : string) (v : json) (d : list (string * json))
  : list (string * json) :=
  match d with
  | [] => [(k, v)]
  | (k', v') :: d' =>
      if String.eqb k' k then (k', v) :: d' else (k', v') :: dict_set k v d'
  end.

(** [obj[k] = v] on a value decoded from JSON: only a dict supports it. *)
Definition setitem (obj : json) (k : string) (v : json) : result json :=
  match obj with
  | JObj d => Ok (JObj (dict_set k v d))
  | _ => Raise TypeError
  end.

(** *** The [Contributor] dataclass (lines 18-38) *)

Record Contributor : Type := {
  last_names : string;
  first_names : string;
  affiliation : string;
  orcid : option string;   (* [orcid: str = None] *)
}.

#[global] Instance Contributor_eq_dec : EqDecision Contributor.
Proof. solve_decision. Defined.

(** The generated [__eq__]: the tuples of the four fields are compared. *)
Definition Contributor_eq (a b : Contributor) : bool :=
  String.eqb (last_names a) (last_names b)
  && String.eqb (first_names a) (first_names b)
  && String.eqb (affiliation a) (affiliation b)
  && match orcid a, orcid b with
     | None, None => true
     | Some x, Some y => String.eqb x y
     | _, _ => false
     end.

(** [c in people] on a list: the first element equal to [c] decides. *)
Fixpoint contains (people : list Contributor) (c : Contributor) : bool :=
  match people with
  | [] => false
  | p :: people' => if Contributor_eq p c then true else contains people' c
  end.

(** The generated [__init__], called as
    [cls(last_names=..., first_names=..., **kwargs)].  A key of [kwargs] that
    repeats an explicit argument, a key that is no field, and a missing
    [affiliation] each raise [TypeError]. *)
Definition Contributor_init (last first : string) (kwargs : gmap string string)
  : result Contributor :=
  if bool_decide (is_Some (kwargs !! "last_names") ∨ is_Some (kwargs !! "first_names"))
  then Raise TypeError
  else if bool_decide (dom kwargs ⊆ ({["affiliation"; "orcid"]} : gset string))
  then match kwargs !! "affiliation" with
       | None => Raise TypeError
       | Some a =>
           Ok {| last_names := last; first_names := first;
                 affiliation := a; orcid := kwargs !! "orcid" |}
       end
  else Raise TypeError.

(** [dict.pop(key)] without a default. *)
Definition dict_pop (key : string) (d : gmap string string)
  : result (string * gmap string string) :=
  match d !! key with
  | None => Raise (KeyError key)
  | Some v => Ok (v, delete key d)
  end.

(** The classmethod [from_citation_author], lines 25-30; [citation] is the
    dict of its keyword arguments. *)
Definition from_citation_author (citation : gmap string string)
  : result Contributor :=
  match dict_pop "family-names" citation with
  | Raise e => Raise e
  | Ok (last, citation) =>
      match dict_pop "given-names" citation with
      | Raise e => Raise e
      | Ok (first, citation) => Contributor_init last first citation
      end
  end.

(** [Contributor.as_zenodo_creator(self)], lines 32-38. *)
Definition as_zenodo_creator (self : Contributor) : json :=
  let ret := [("name", JStr (first_names self +:+ " " +:+ last_names self));
              ("affiliation", JStr (affiliation self))] in
  match orcid self with
  | Some (String _ _ as o) =>   (* [if self.orcid:] *)
      JObj (dict_set "orcid" (JStr (lstrip "https://orcid.org/" o)) ret)
  | _ => JObj ret
  end.

(** *** The [sync] command (lines 41-65) *)

(** What [sync] can observe and change: the files of the working directory, by
    name, and the text printed so far.  [json.dumps] escapes every non-ASCII
    character, so its output and the UTF-8 encoding of it are the same bytes. *)
Record World : Type := {
  files : gmap string string;
  stdout : string;
}.

(** The keyword arguments of [json.dumps] that [sync] sets. *)
Record dump_options : Type := {
  indent : option nat;
  sort_keys : bool;
}.

Section Sync.

(** The parsers and the printer of the libraries, [ruamel.yaml.load],
    [json.loads] and [json.dumps].  Of a YAML document only the top-level
    fields that hold a list of string-valued records are kept: [sync] reads no
    other. *)
Variable yaml_load : string → result (gmap string (list (gmap string string))).
Variable json_loads : string → result json.
Variable json_dumps : dump_options → json → string.

(** [open(name, 'rb')] followed by [file.read()]. *)
Definition read_file (name : string) : M World string :=
  λ w, match files w !! name with
       | Some data => (w, Ok data)
       | None => (w, Raise (FileNotFoundError name))
       end.

(** [open(name, 'wb')] followed by [file.write(data)]. *)
Definition write_file (name data : string) : M World unit :=
  modify (λ w, {| files := <[name := data]> (files w); stdout := stdout w |}).

(** [print(text)]: the text and a line feed go to standard output. *)
Definition print (text : string) : M World unit :=
  modify (λ w, {| files := files w; stdout := stdout w +:+ text +:+ newline |}).

(** [citation[key]] on a loaded document. *)
Definition subscript {A} (key : string) (doc : gmap string A) : result A :=
  match doc !! key with
  | Some v => Ok v
  | None => Raise (KeyError key)
  end.

(** Lines 45-49 and 51-55: the people listed under [key] in file [name]. *)
Definition load_people (name key : string) : M World (list Contributor) :=
  let! data := read_file name in
  let! citation := lift (yaml_load data) in
  let! entries := lift (subscript key citation) in
  lift (comprehension from_citation_author entries).

(** Lines 59-60: the two assignments into the decoded record. *)
Definition merge (zenodo : json) (authors contributors : list Contributor)
  : result json :=
  match setitem zenodo "creators" (JArr (map as_zenodo_creator authors)) with
  | Raise e => Raise e
  | Ok zenodo =>
      setitem zenodo "contributors"
        (JArr (map as_zenodo_creator
                 (List.filter (λ c, negb (contains authors c)) contributors)))
  end.

(** Lines 44-65. *)
Definition sync (in_place : bool) : M World unit :=
  let! authors := load_people "CITATION.cff" "authors" in
  let! contributors := load_people "contributors.yaml" "contributors" in
  let! data := read_file ".zenodo.json" in
  let! zenodo := lift (json_loads data) in
  let! zenodo := lift (merge zenodo authors contributors) in
  let text := json_dumps {| indent := Some 4; sort_keys := true |} zenodo in
  if in_place
  then write_file ".zenodo.json" text
  else print text.

End Sync.

(** *** Words of the specification *)

(** Two contributors are equal field by field, the identifier included. *)
Definition fieldwise_equal (a b : Contributor) : Prop :=
  last_names a = last_names b ∧ first_names a = first_names b
  ∧ affiliation a = affiliation b ∧ orcid a = orcid b.

#[global] Instance fieldwise_equal_dec : RelDecision fieldwise_equal.
Proof. intros a b. unfold fieldwise_equal. apply _. Defined.

(** [c] duplicates an entry of the authors list. *)
Definition duplicates (authors : list Contributor) (c : Contributor) : Prop :=
  Exists (fieldwise_equal c) authors.

(** An input record without one of the three required fields. *)
Definition lacks_required_field (r : gmap string string) : Prop :=
  r !! "family-names" = None ∨ r !! "given-names" = None
  ∨ r !! "affiliation" = None.

(** Record [r] is an entry of the list under [key] in the file [name], as
    the loader reads it. *)
Definition listed
    (yaml_load : string → result (gmap string (list (gmap string string))))
    (name key : string) (w : World) (r : gmap string string) : Prop :=
  ∃ data doc entries,
    files w !! name = Some data ∧ yaml_load data = Ok doc
    ∧ doc !! key = Some entries ∧ r ∈ entries.

(** *** Sample inputs

    The records of the scenario of the specification, a record without
    affiliation, and stand-ins for the library parsers that know the documents
    of one sample working directory. *)

Definition jane_doe : gmap string string :=
  {[ "family-names" := "Doe"; "given-names" := "Jane"; "affiliation" := "X" ]}.
Definition rick_roe : gmap string string :=
  {[ "family-names" := "Roe"; "given-names" := "Rick"; "affiliation" := "Y" ]}.
Definition no_affiliation : gmap string string :=
  {[ "family-names" := "Poe"; "given-names" := "Pat" ]}.

Definition sample_yaml_load (data : string)
  : result (gmap string (list (gmap string string))) :=
  if String.eqb data "authors: [Jane Doe]"
  then Ok {[ "authors" := [jane_doe] ]}
  else if String.eqb data "contributors: [Jane Doe, Rick Roe]"
  then Ok {[ "contributors" := [jane_doe; rick_roe] ]}
  else if String.eqb data "contributors: [Rick Roe, Pat Poe]"
  then Ok {[ "contributors" := [rick_roe; no_affiliation] ]}
  else Raise ParseError.

Definition sample_json_loads (data : string) : result json :=
  if String.eqb data "{}" then Ok (JObj []) else Raise ParseError.

Definition sample_json_dumps (options : dump_options) (value : json) : string :=
  match value with
  | JObj [] => "{}"
  | _ => "{...}"
  end.

Definition sample_world : World :=
  {| files := {[ "CITATION.cff" := "authors: [Jane Doe]";
                 "contributors.yaml" := "contributors: [Jane Doe, Rick Roe]";
                 ".zenodo.json" := "{}" ]};
     stdout := "" |}.

Definition sample_world_missing_field : World :=
  {| files := {[ "CITATION.cff" := "authors: [Jane Doe]";
                 "contributors.yaml" := "contributors: [Rick Roe, Pat Poe]";
                 ".zenodo.json" := "{}" ]};
     stdout := "" |}.

End SyncContributors.

(** ** [flow/util/misc.py] *)

Module Misc.

(** *** Strings and paths *)

(** [list(s)]: the characters of a string, each a string of length one.  This
    is what [for path_ in pythonpath] iterates over. *)
Fixpoint characters (s : string) : list string :=
  match s with
  | EmptyString => []
  | String c s' => String c EmptyString :: characters s'
  end.

(** [s.split(sep)] for a one-character separator: never the empty list. *)
Fixpoint split (sep : ascii) (s : string) : list string :=
  match s with
  | EmptyString => [EmptyString]
  | String c s' =>
      if Ascii.eqb c sep then EmptyString :: split sep s'
      else match split sep s' with
           | [] => [String c EmptyString]
           | w :: ws => String c w :: ws
           end
  end.

(** [sep.join(words)]. *)
Fixpoint join (sep : string) (words : list string) : string :=
  match words with
  | [] => EmptyString
  | [w] => w
  | w :: words' => w +:+ sep +:+ join sep words'
  end.

(** [os.path.isabs] of [posixpath]: the path starts with a slash. *)
Definition isabs (path : string) : bool :=
  match path with
  | String "/" _ => true
  | _ => false
  end.

(** *** The process state *)

Record Formatter : Type := { fmt : string }.

(** A [logging.FileHandler].  [hid] is the identity of the object (handlers
    define no [__eq__], so [in] and [remove] compare identities); [filename] is
    the path it was opened on. *)
Record Handler : Type := {
  hid : nat;
  filename : string;
  formatter : option Formatter;
}.

(** A job of signac, as far as this file uses it: the method [fn]. *)
Record Job : Type := { fn : string → string }.

(** The process-wide state the context managers act on: the working directory,
    [os.environ], the [handlers] list of every logger (by logger name, the
    root logger being ["root"]) and the next unused object identity. *)
Record Process : Type := {
  cwd : string;
  environ : gmap string string;
  loggers : gmap string (list Handler);
  next_id : nat;
}.

Definition set_cwd (d : string) (s : Process) : Process :=
  {| cwd := d; environ := environ s; loggers := loggers s; next_id := next_id s |}.
Definition set_environ (e : gmap string string) (s : Process) : Process :=
  {| cwd := cwd s; environ := e; loggers := loggers s; next_id := next_id s |}.
Definition set_loggers (l : gmap string (list Handler)) (s : Process) : Process :=
  {| cwd := cwd s; environ := environ s; loggers := l; next_id := next_id s |}.
Definition set_next_id (n : nat) (s : Process) : Process :=
  {| cwd := cwd s; environ := environ s; loggers := loggers s; next_id := n |}.

(** [logger.handlers]; a logger never touched has none. *)
Definition handlers (logger : string) (s : Process) : list Handler :=
  default [] (loggers s !! logger).

(** What the file system decides.  It is fixed while a scope runs: the scope
    body acts on the process state only. *)
Class FileSystem : Type := {
  (** [os.path.realpath(path)] in a process whose working directory is the
      first argument. *)
  realpath : string → string → string;
  (** The directory [os.chdir(path)] leads to, as [os.getcwd()] then names
      it, or [None] when the call fails. *)
  chdir_target : string → string → option string;
  (** Whether [open(path, 'a')] succeeds. *)
  can_open : string → string → bool;
}.

(** A file system without symbolic links, for paths given in normal form:
    every path names a directory and every file can be opened. *)
Definition plain_realpath (cwd path : string) : string :=
  if isabs path then path else cwd +:+ "/" +:+ path.
Definition plain_fs : FileSystem :=
  {| realpath := plain_realpath;
     chdir_target := λ cwd path, Some (plain_realpath cwd path);
     can_open := λ _ _, true |}.

Section Misc.

Context {fs : FileSystem}.

(** *** [os] and [logging] primitives *)

Definition getcwd : M Process string := gets cwd.

Definition chdir (path : string) : M Process unit :=
  λ s, match chdir_target (cwd s) path with
       | Some d => (set_cwd d s, Ok tt)
       | None => (s, Raise OSError)
       end.

Definition os_path_realpath (path : string) : M Process string :=
  gets (λ s, realpath (cwd s) path).

(** [os.environ.get(key)], [os.environ[key] = value], [del os.environ[key]]. *)
Definition environ_get (key : string) : M Process (option string) :=
  gets (λ s, environ s !! key).
Definition environ_set (key value : string) : M Process unit :=
  modify (λ s, set_environ (<[key := value]> (environ s)) s).
Definition environ_del (key : string) : M Process unit :=
  λ s, match environ s !! key with
       | Some _ => (set_environ (delete key (environ s)) s, Ok tt)
       | None => (s, Raise (KeyError key))
       end.

(** [logging.FileHandler(filename=name)]: opens the file and yields a new
    object. *)
Definition FileHandler (name : string) : M Process Handler :=
  λ s, if can_open (cwd s) name
       then (set_next_id (S (next_id s)) s,
             Ok {| hid := next_id s; filename := name; formatter := None |})
       else (s, Raise OSError).

Definition setFormatter (h : Handler) (f : Formatter) : Handler :=
  {| hid := hid h; filename := filename h; formatter := Some f |}.

(** [h in hs] and [hs.remove(h)] on a list of handlers. *)
Definition is_handler (h h' : Handler) : bool := Nat.eqb (hid h') (hid h).
Fixpoint remove_first (h : Handler) (hs : list Handler) : list Handler :=
  match hs with
  | [] => []
  | h' :: hs' => if is_handler h h' then hs' else h' :: remove_first h hs'
  end.

(** [Logger.addHandler]: appends unless already present. *)
Definition addHandler (logger : string) (h : Handler) : M Process unit :=
  modify (λ s,
    let hs := handlers logger s in
    if existsb (is_handler h) hs then s
    else set_loggers (<[logger := hs ++ [h]]> (loggers s)) s).

(** [Logger.removeHandler]: removes when present. *)
Definition removeHandler (logger : string) (h : Handler) : M Process unit :=
  modify (λ s,
    let hs := handlers logger s in
    if existsb (is_handler h) hs
    then set_loggers (<[logger := remove_first h hs]> (loggers s)) s
    else s).

Definition default_formatter : Formatter :=
  {| fmt := "%(asctime)s %(name)-12s %(levelname)-8s %(message)s" |}.

(** *** The context managers *)

(** Lines 92-124.  [body] is the block of the [with] statement, run at the
    [yield]. *)
Definition redirect_log (job : Job) (filename : string)
    (formatter : option Formatter) (logger : option string)
    (body : M Process unit) : M Process unit :=
  let formatter := default default_formatter formatter in
  let logger := default "root" logger in
  let! filehandler := FileHandler (fn job "run.log") in
  let filehandler := setFormatter filehandler formatter in
  do! addHandler logger filehandler in
  try_finally body (removeHandler logger filehandler).

(** The test of line 134 for one element [path_] of the loop, in a process
    whose working directory is [cwd]. *)
Definition same_path (cwd path path_ : string) : bool :=
  isabs path_ && String.eqb (realpath cwd path_) path.

(** The loop of lines 133-134 as a search: whether some element passes the
    test.  The elements are the characters of the string. *)
Definition scan_pythonpath (path pythonpath : string) : M Process bool :=
  gets (λ s, existsb (same_path (cwd s) path) (characters pythonpath)).

(** Lines 127-151.  The first hit of the loop runs the body and returns, so
    the rest of the function is reached only when no element passes the
    test. *)
Definition add_path_to_environment_pythonpath (path : string)
    (body : M Process unit) : M Process unit :=
  let! path := os_path_realpath path in
  let! pythonpath := environ_get "PYTHONPATH" in
  match pythonpath with
  | Some (String _ _ as pythonpath) =>   (* [if pythonpath:] *)
      let! found := scan_pythonpath path pythonpath in
      if found
      then body
      else
        try_finally
          (let tmp_path := path :: split ":" pythonpath in
           do! environ_set "PYTHONPATH" (join ":" tmp_path) in
           body)
          (environ_set "PYTHONPATH" pythonpath)
  | _ =>
      try_finally
        (do! environ_set "PYTHONPATH" path in body)
        (environ_del "PYTHONPATH")
  end.

(** Lines 154-157. *)
Definition add_cwd_to_environment_pythonpath (body : M Process unit)
  : M Process unit :=
  let! here := getcwd in
  add_path_to_environment_pythonpath here body.

(** Lines 160-171. *)
Definition switch_to_directory (root : option string) (body : M Process unit)
  : M Process unit :=
  match root with
  | None => body
  | Some root =>
      let! cwd := getcwd in
      try_finally (do! chdir root in body) (chdir cwd)
  end.

(** *** Words of the specification *)

(** The documented test for a path already in the variable: some
    colon-delimited entry of the value is absolute and has the canonical form
    of the path. *)
Definition entry_listed (here path pythonpath : string) : bool :=
  existsb (same_path here (realpath here path)) (split ":" pythonpath).

(** [d] names a directory the way [os.getcwd()] does: from anywhere,
    [os.chdir(d)] succeeds and leads to [d]. *)
Definition is_working_directory (d : string) : Prop :=
  ∀ here, chdir_target here d = Some d.

(** The handler [redirect_log] creates in state [s]. *)
Definition new_handler (job : Job) (formatter : option Formatter) (s : Process)
  : Handler :=
  {| hid := next_id s; filename := fn job "run.log";
     formatter := Some (default default_formatter formatter) |}.

(** The state in which the body of [redirect_log] starts. *)
Definition logging_to (job : Job) (formatter : option Formatter)
    (logger : option string) (s : Process) : Process :=
  let name := default "root" logger in
  set_loggers
    (<[name := handlers name s ++ [new_handler job formatter s]]> (loggers s))
    (set_next_id (S (next_id s)) s).

(** The handlers of [logger] are objects created before the next one. *)
Definition fresh_for (logger : string) (s : Process) : Prop :=
  Forall (λ h, hid h < next_id s) (handlers logger s).

End Misc.

(** *** Sample states *)

Definition sample_process (pythonpath : option string) : Process :=
  {| cwd := "/home/u";
     environ := match pythonpath with
                | Some v => {[ "PYTHONPATH" := v ]}
                | None => ∅
                end;
     loggers := {[ "root" := [{| hid := 0; filename := "/var/log/app.log";
                                 formatter := None |}] ]};
     next_id := 1 |}.

Definition sample_job : Job := {| fn := λ name, "/ws/job/" +:+ name |}.

End Misc.

(** ** Further sample inputs for [.sync-contributors.py] *)

Module SyncSamples.

Import SyncContributors.

(** The merged record of the sample working directory. *)
Definition sample_merged : json :=
  JObj [("creators",
         JArr [JObj [("name", JStr "Jane Doe"); ("affiliation", JStr "X")]]);
        ("contributors",
         JArr [JObj [("name", JStr "Rick Roe"); ("affiliation", JStr "Y")]])].

(** Stand-ins for [json.dumps] and [json.loads] that know three documents
    and read back what they print. *)
Definition table_json_dumps (options : dump_options) (value : json) : string :=
  match value with
  | JObj [] => "{}"
  | JArr [] => "[]"
  | _ => "{creators: [Jane Doe], contributors: [Rick Roe]}"
  end.

Definition table_json_loads (data : string) : result json :=
  if String.eqb data "{}" then Ok (JObj [])
  else if String.eqb data "[]" then Ok (JArr [])
  else if String.eqb data "{creators: [Jane Doe], contributors: [Rick Roe]}"
  then Ok sample_merged
  else Raise ParseError.

(** A working directory whose target file holds a list, and an empty one. *)
Definition sample_world_list_target : World :=
  {| files := {[ "CITATION.cff" := "authors: [Jane Doe]";
                 "contributors.yaml" := "contributors: [Jane Doe, Rick Roe]";
                 ".zenodo.json" := "[]" ]};
     stdout := "" |}.


End SyncSamples.

(** ** [flow/util/misc.py]: the plain helpers *)

Module MiscTools.

Import SyncContributors.

(** The exceptions these helpers raise themselves. *)
Inductive error : Type :=
  | ArgumentTypeError (msg : string)
  | OverflowError.

Inductive outcome (A : Type) : Type :=
  | Returns (a : A)
  | Raises (e : error).
Arguments Returns {A} a.
Arguments Raises {A} e.

(** *** [_identical] (lines 67-69) *)

(** [len(set(iterator)) <= 1], for elements of any hashable type. *)
Definition _identical `{Countable A} (iterator : list A) : bool :=
  bool_decide (size (list_to_set iterator : gset A) ≤ 1).

(** *** [_positive_int] (lines 24-42) *)

(** [int(value)] on a string is the library's parser, [None] standing for its
    [ValueError].  The [ArgumentTypeError] raised inside the [try] block is
    neither a [TypeError] nor a [ValueError], so the [except] clause lets it
    through. *)
Definition _positive_int (int : string → option Z) (value : string)
  : outcome Z :=
  match int value with
  | Some ivalue =>
      if bool_decide (ivalue ≤ 0)%Z
      then Raises (ArgumentTypeError "Value must be positive.")
      else Returns ivalue
  | None =>
      Raises (ArgumentTypeError (value +:+ " must be a positive integer."))
  end.

(** *** [_format_timedelta] (lines 72-80) *)

(** A [datetime.timedelta], which Python keeps normalised:
    [0 <= seconds < 86400] and [0 <= microseconds < 1000000]. *)
Record timedelta : Type := {
  days : Z;
  seconds : Z;
  microseconds : Z;
}.

(** [datetime.timedelta(hours=n)] for an integer [n]. *)
Definition timedelta_of_hours (n : Z) : outcome timedelta :=
  let total := (n * 3600)%Z in
  let d := (total `div` 86400)%Z in
  if bool_decide (Z.abs d ≤ 999999999)%Z
  then Returns {| days := d; seconds := (total `mod` 86400)%Z;
                  microseconds := 0 |}
  else Raises OverflowError.

(** The argument of [_format_timedelta]: an [int] number of hours or a
    [timedelta].  A [float] number of hours is outside this model. *)
Inductive delta_arg : Type :=
  | Hours (n : Z)
  | Delta (d : timedelta).

(** [str(n)] for an integer. *)
Definition str_int (n : Z) : string :=
  DecimalString.NilZero.string_of_int (Z.to_int n).

(** [c * n] for a one-character string. *)
Fixpoint repeat_char (c : ascii) (n : nat) : string :=
  match n with
  | O => EmptyString
  | S n' => String c (repeat_char c n')
  end.

(** The replacement field [{:0>2}]: right-aligned in two columns, filled
    with zeros. *)
Definition format_02 (n : Z) : string :=
  let text := str_int n in
  repeat_char "0" (2 - String.length text) +:+ text.

(** Lines 77-79: the three numbers that are formatted. *)
Definition hours_minutes_seconds (delta : timedelta) : Z * Z * Z :=
  let (hours, r) := ((seconds delta `div` 3600)%Z, (seconds delta `mod` 3600)%Z) in
  let (minutes, seconds) := ((r `div` 60)%Z, (r `mod` 60)%Z) in
  let hours := (hours + days delta * 24)%Z in
  (hours, minutes, seconds).

Definition _format_timedelta (delta : delta_arg) : outcome string :=
  let delta :=
    match delta with
    | Hours n => timedelta_of_hours n
    | Delta d => Returns d
    end in
  match delta with
  | Raises e => Raises e
  | Returns delta =>
      let '(hours, minutes, seconds) := hours_minutes_seconds delta in
      Returns (format_02 hours +:+ ":" +:+ format_02 minutes +:+ ":"
               +:+ format_02 seconds)
  end.

(** *** [write_human_readable_statepoint] (lines 83-89) *)

(** [s.replace(old, new)] for a one-character [old]. *)
Fixpoint replace_char (old : ascii) (new : string) (s : string) : string :=
  match s with
  | EmptyString => EmptyString
  | String c s' =>
      if Ascii.eqb c old then new +:+ replace_char old new s'
      else String c (replace_char old new s')
  end.

(** The line boundaries of [str.splitlines] among the characters below 256:
    line feed, vertical tab, form feed, carriage return, the three
    separators 28-30 and next line (133). *)
Definition is_linebreak (c : ascii) : bool :=
  let n := nat_of_ascii c in
  bool_decide (n ∈ [10; 11; 12; 13; 28; 29; 30; 133]).

(** [s.splitlines()]: a carriage return followed by a line feed is one
    boundary, and a boundary at the very end opens no further line. *)
Fixpoint splitlines (s : string) : list string :=
  match s with
  | EmptyString => []
  | String c s' =>
      if is_linebreak c then
        match s' with
        | String c' s'' =>
            if Ascii.eqb c "013" && Ascii.eqb c' "010"
            then EmptyString :: splitlines s''
            else EmptyString :: splitlines s'
        | EmptyString => [EmptyString]
        end
      else
        match splitlines s' with
        | [] => [String c EmptyString]
        | line :: lines => String c line :: lines
        end
  end.

(** A job, as far as this function uses it: the method [statepoint]. *)
Record StatepointJob : Type := { statepoint : json }.

(** [script.write(text)] on a file-like object: [script] is what has been
    written to it so far. *)
Definition script_write (text : string) : M string unit :=
  modify (λ script, script +:+ text).

(** The loop of lines 88-89. *)
Fixpoint write_lines (lines : list string) : M string unit :=
  match lines with
  | [] => Py.ret tt
  | line :: lines' =>
      do! script_write ("# " +:+ line +:+ newline) in
      write_lines lines'
  end.

Definition write_human_readable_statepoint
    (json_dumps : dump_options → json → string) (job : StatepointJob)
  : M string unit :=
  do! script_write ("# Statepoint:" +:+ newline +:+ "#" +:+ newline) in
  let sp_dump :=
    replace_char "}" "}}"
      (replace_char "{" "{{"
         (json_dumps {| indent := Some 2; sort_keys := false |}
            (statepoint job))) in
  write_lines (splitlines sp_dump).

(** *** Words of the properties and a sample file system *)

(** No character of the string is a line boundary. *)
Definition one_line (s : string) : Prop :=
  ∀ c, char_in c s = true → is_linebreak c = false.

(** The two decimal digits of a number from 0 to 99. *)
Definition two_digits (n : Z) : string :=
  String (ascii_of_nat (48 + Z.to_nat (n `div` 10)))
    (String (ascii_of_nat (48 + Z.to_nat (n `mod` 10))) EmptyString).

(** Lines 86-87: every brace of the text doubled. *)
Definition double_braces (text : string) : string :=
  replace_char "}" "}}" (replace_char "{" "{{" text).

(** The text the loop of lines 88-89 writes for a list of lines. *)
Fixpoint comment_block (lines : list string) : string :=
  match lines with
  | [] => EmptyString
  | line :: lines' => "# " +:+ line +:+ newline +:+ comment_block lines'
  end.

(** A line of the script that is a comment. *)
Definition is_comment (line : string) : Prop :=
  ∃ rest, line = String "#" rest.

(** A file system in which no file can be opened, otherwise like
    [Misc.plain_fs]. *)
Definition closed_fs : Misc.FileSystem :=
  {| Misc.realpath := Misc.plain_realpath;
     Misc.chdir_target := λ cwd path, Some (Misc.plain_realpath cwd path);
     Misc.can_open := λ _ _, false |}.

End MiscTools.

(** ** Properties of [.sync-contributors.py] *)

Module SyncSpec.

Import SyncContributors.

(** *** Equality and membership of contributors *)

Lemma fieldwise_equal_eq a b : fieldwise_equal a b ↔ a = b.
Proof.
  split; [| by intros ->].
  destruct a, b; unfold fieldwise_equal; simpl.
  by intros (-> & -> & -> & ->).
Qed.

Lemma Contributor_eq_true a b : Contributor_eq a b = true ↔ a = b.
Proof.
  rewrite <- fieldwise_equal_eq.
  unfold Contributor_eq, fieldwise_equal.
  rewrite !andb_true_iff, !String.eqb_eq.
  destruct (orcid a) as [x|], (orcid b) as [y|]; rewrite ?String.eqb_eq;
    (split; [intros [[[? ?] ?] ?] | intros (? & ? & ? & ?)]);
    repeat split; congruence.
Qed.

Lemma contains_true authors c : contains authors c = true ↔ c ∈ authors.
Proof.
  induction authors as [|a authors IH]; simpl.
  - rewrite elem_of_nil. split; [discriminate | tauto].
  - rewrite elem_of_cons, <- IH.
    destruct (Contributor_eq a c) eqn:E.
    + apply Contributor_eq_true in E. split; [by left | done].
    + split; [tauto |]. intros [-> | H]; [| done].
      assert (Contributor_eq a a = true) by (by apply Contributor_eq_true).
      congruence.
Qed.

Lemma contains_duplicates authors c :
  contains authors c = true ↔ duplicates authors c.
Proof.
  rewrite contains_true. unfold duplicates. rewrite Exists_exists.
  split.
  - intros H. exists c. split; [done | by apply fieldwise_equal_eq].
  - intros (a & Ha & Heq). apply fieldwise_equal_eq in Heq. by subst.
Qed.

(** The comprehension of line 60 keeps the entries that duplicate no author,
    in their order. *)
Lemma survivors_filter authors contributors :
  List.filter (λ c, negb (contains authors c)) contributors
  = filter (λ c, ¬ duplicates authors c) contributors.
Proof.
  induction contributors as [|c l IH]; [done |].
  simpl. rewrite filter_cons, IH.
  destruct (contains authors c) eqn:E; simpl.
  - apply contains_duplicates in E. by rewrite decide_False by tauto.
  - rewrite decide_True; [done |].
    intros H. apply contains_duplicates in H. congruence.
Qed.

(** *** Dict assignment *)

Lemma dict_get_set_eq k v d : dict_get k (dict_set k v d) = Some v.
Proof.
  induction d as [|[k' v'] d IH]; simpl.
  - by rewrite String.eqb_refl.
  - destruct (String.eqb k' k) eqn:E; simpl; by rewrite E.
Qed.

Lemma dict_get_set_ne k k' v d :
  k ≠ k' → dict_get k' (dict_set k v d) = dict_get k' d.
Proof.
  intros Hne. induction d as [|[k0 v0] d IH]; simpl.
  - by rewrite (proj2 (String.eqb_neq k k')).
  - destruct (String.eqb k0 k) eqn:E; simpl.
    + apply String.eqb_eq in E. subst k0.
      by rewrite (proj2 (String.eqb_neq k k')).
    + by rewrite IH.
Qed.

(** The two assignments of lines 59-60, on a decoded dict. *)
Lemma merge_dict d authors contributors :
  merge (JObj d) authors contributors
  = Ok (JObj (dict_set "contributors"
                (JArr (map as_zenodo_creator
                         (List.filter (λ c, negb (contains authors c))
                            contributors)))
                (dict_set "creators" (JArr (map as_zenodo_creator authors)) d))).
Proof. reflexivity. Qed.

(** Anything but a dict makes the first assignment fail. *)
Lemma merge_not_dict z authors contributors :
  (∀ d, z ≠ JObj d) → merge z authors contributors = Raise TypeError.
Proof. intros H. destruct z; try done. by destruct (H items). Qed.

(** [C1] For every authors list [A] and contributors list [B], and every
    decoded target record, the merged record's [creators] field is [A]
    transformed entry by entry, in order, and its [contributors] field is the
    transformation of exactly the entries of [B] that are field-wise equal (all
    four attributes, the optional identifier included) to no entry of [A], in
    their order in [B]; the other fields of the record are kept. *)
Theorem merge_excludes_authors (d : list (string * json))
    (A B : list Contributor) :
  ∃ d', merge (JObj d) A B = Ok (JObj d')
    ∧ dict_get "creators" d' = Some (JArr (as_zenodo_creator <$> A))
    ∧ dict_get "contributors" d'
      = Some (JArr (as_zenodo_creator <$> filter (λ c, ¬ duplicates A c) B))
    ∧ filter (λ c, ¬ duplicates A c) B `sublist_of` B
    ∧ (∀ c, c ∈ filter (λ c, ¬ duplicates A c) B
            ↔ c ∈ B ∧ ¬ ∃ a, a ∈ A ∧ fieldwise_equal c a)
    ∧ ∀ k, k ≠ "creators" → k ≠ "contributors" → dict_get k d' = dict_get k d.
Proof.
  eexists. split; [apply merge_dict |].
  split; [| split; [| split; [| split]]].
  - by rewrite dict_get_set_ne, dict_get_set_eq.
  - by rewrite dict_get_set_eq, survivors_filter.
  - apply sublist_filter.
  - intros c. rewrite list_elem_of_filter. unfold duplicates.
    rewrite Exists_exists. tauto.
  - intros k H1 H2. by rewrite !dict_get_set_ne.
Qed.

(** *** The scenario of the specification *)

(** [C8] With authors = [Jane Doe (X)] and contributors = [Jane Doe (X),
    Rick Roe (Y)], both read from records with the keys family-names,
    given-names and affiliation, the merged record has creators =
    [{name: "Jane Doe", affiliation: "X"}] and contributors =
    [{name: "Rick Roe", affiliation: "Y"}]: the name is the first names, a
    space and the last names, and no orcid key is emitted. *)
Theorem merge_scenario (d : list (string * json)) :
  ∃ A B d',
    comprehension from_citation_author [jane_doe] = Ok A
    ∧ comprehension from_citation_author [jane_doe; rick_roe] = Ok B
    ∧ merge (JObj d) A B = Ok (JObj d')
    ∧ dict_get "creators" d'
      = Some (JArr [JObj [("name", JStr "Jane Doe"); ("affiliation", JStr "X")]])
    ∧ dict_get "contributors" d'
      = Some (JArr [JObj [("name", JStr "Rick Roe"); ("affiliation", JStr "Y")]]).
Proof.
  eexists _, _, _.
  split; [by vm_compute |]. split; [by vm_compute |].
  split; [apply merge_dict |].
  split.
  - by rewrite dict_get_set_ne, dict_get_set_eq.
  - by rewrite dict_get_set_eq.
Qed.

(** *** Identifier normalisation *)

(** Where the identifier continues with a character outside the set the
    prefix is made of (a digit, as every ORCID iD does), [lstrip] removes
    the prefix and nothing more. *)
Lemma lstrip_prefix_stops (c : ascii) (rest : string) :
  char_in c "https://orcid.org/" = false →
  lstrip "https://orcid.org/" ("https://orcid.org/" +:+ String c rest)
  = String c rest.
Proof.
  intros H.
  change (lstrip "https://orcid.org/" ("https://orcid.org/" +:+ String c rest))
    with (lstrip "https://orcid.org/" (String c rest)).
  cbn [lstrip]. by rewrite H.
Qed.

Lemma strip_prefix_app (prefix rest : string) :
  strip_prefix prefix (prefix +:+ rest) = Some rest.
Proof.
  induction prefix as [|p prefix IH]; simpl; [by destruct rest |].
  by rewrite Ascii.eqb_refl.
Qed.

(** [C5] At the identifier "https://orcid.org/doi-0000", which begins with
    the prefix, the emitted orcid field is "-0000" and not the identifier
    without its prefix, "doi-0000": [lstrip] takes its argument as a set of
    characters and goes on through "doi". *)
Theorem as_zenodo_creator_strips_too_much :
  let c := {| last_names := "Roe"; first_names := "Rick"; affiliation := "Y";
              orcid := Some "https://orcid.org/doi-0000" |} in
  strip_prefix "https://orcid.org/" "https://orcid.org/doi-0000"
  = Some "doi-0000"
  ∧ as_zenodo_creator c
    = JObj [("name", JStr "Rick Roe"); ("affiliation", JStr "Y");
            ("orcid", JStr "-0000")].
Proof. by vm_compute. Qed.

(** *** Missing fields *)

Lemma Contributor_init_no_affiliation last first kwargs :
  kwargs !! "affiliation" = None →
  Contributor_init last first kwargs = Raise TypeError.
Proof.
  intros H. unfold Contributor_init.
  repeat case_bool_decide; try done. by rewrite H.
Qed.

Lemma from_citation_author_raises (r : gmap string string) :
  lacks_required_field r → ∃ e, from_citation_author r = Raise e.
Proof.
  unfold from_citation_author, dict_pop.
  intros [H | [H | H]].
  - rewrite H. eauto.
  - destruct (r !! "family-names"); [| eauto].
    rewrite lookup_delete_ne by done. rewrite H. eauto.
  - destruct (r !! "family-names"); [| eauto].
    rewrite lookup_delete_ne by done.
    destruct (r !! "given-names"); [| eauto].
    rewrite Contributor_init_no_affiliation; [eauto |].
    by rewrite !lookup_delete_ne.
Qed.

Lemma comprehension_raises {A B} (f : A → result B) (xs : list A) (x : A) :
  x ∈ xs → (∃ e, f x = Raise e) → ∃ e, comprehension f xs = Raise e.
Proof.
  intros Hin [e He]. induction xs as [|y xs IH]; [by apply elem_of_nil in Hin |].
  simpl. apply elem_of_cons in Hin as [<- | Hin].
  - rewrite He. eauto.
  - destruct (f y); [| eauto].
    destruct (IH Hin) as [e' ->]. eauto.
Qed.

Section SyncProperties.

Variable yaml_load : string → result (gmap string (list (gmap string string))).
Variable json_loads : string → result json.
Variable json_dumps : dump_options → json → string.

Local Abbreviation load_people := (load_people yaml_load).
Local Abbreviation sync := (sync yaml_load json_loads json_dumps).
Local Abbreviation listed := (listed yaml_load).

(** Reading never changes the world. *)
Lemma load_people_world name key w : (load_people name key w).1 = w.
Proof.
  unfold SyncContributors.load_people, bind, read_file, lift.
  destruct (files w !! name); [| done].
  destruct (yaml_load _); [| done].
  by destruct (subscript key _).
Qed.

Lemma load_people_raises name key w r :
  listed name key w r → lacks_required_field r →
  ∃ e, load_people name key w = (w, Raise e).
Proof.
  intros (data & doc & entries & Hf & Hl & Hk & Hin) Hr.
  unfold SyncContributors.load_people, bind, read_file, lift, subscript.
  rewrite Hf, Hl, Hk.
  destruct (comprehension_raises from_citation_author entries r Hin) as [e ->];
    [by apply from_citation_author_raises | eauto].
Qed.

(** A failing [sync] has written and printed nothing. *)
Lemma sync_raise_world in_place w w' e :
  sync in_place w = (w', Raise e) → w' = w.
Proof.
  unfold SyncContributors.sync. unfold bind at 1.
  pose proof (load_people_world "CITATION.cff" "authors" w) as H1.
  destruct (load_people "CITATION.cff" "authors" w) as [w1 [A|e1]];
    simpl in H1; subst w1; [| congruence].
  unfold bind at 1.
  pose proof (load_people_world "contributors.yaml" "contributors" w) as H2.
  destruct (load_people "contributors.yaml" "contributors" w) as [w2 [B|e2]];
    simpl in H2; subst w2; [| congruence].
  unfold bind, read_file, lift.
  destruct (files w !! ".zenodo.json"); [| congruence].
  destruct (json_loads _); [| congruence].
  destruct (merge _ _ _); [| congruence].
  destruct in_place; discriminate.
Qed.

(** [C6] An input record that lacks the last names, the first names or the
    affiliation makes the construction of its Contributor raise, and a
    [sync] that finds such a record among the authors or the contributors
    raises without writing or printing anything. *)
Theorem missing_field_raises (r : gmap string string) :
  lacks_required_field r →
  (∃ e, from_citation_author r = Raise e)
  ∧ ∀ in_place w,
      listed "CITATION.cff" "authors" w r
      ∨ listed "contributors.yaml" "contributors" w r →
      ∃ e, sync in_place w = (w, Raise e).
Proof.
  intros Hr. split; [by apply from_citation_author_raises |].
  intros in_place w Hl.
  assert (∃ w' e, sync in_place w = (w', Raise e)) as (w' & e & Hs).
  { unfold SyncContributors.sync. unfold bind at 1.
    pose proof (load_people_world "CITATION.cff" "authors" w) as H1.
    destruct Hl as [Hl | Hl].
    - destruct (load_people_raises _ _ _ _ Hl Hr) as [e ->]. eauto.
    - destruct (load_people "CITATION.cff" "authors" w) as [w1 [A|e1]];
        simpl in H1; subst w1; [| eauto].
      unfold bind at 1.
      destruct (load_people_raises _ _ _ _ Hl Hr) as [e ->]. eauto. }
  exists e. rewrite Hs. f_equal. by apply sync_raise_world in Hs.
Qed.

(** [C7] Once the three inputs are read and merged into [z'], [sync] with the
    in-place flag stores [json.dumps(z', indent=4, sort_keys=True)] as the new
    contents of .zenodo.json and prints nothing; without the flag it prints
    that same text, followed by a line feed, and leaves every file as it
    was. *)
Theorem sync_writes_or_prints (w : World) (A B : list Contributor)
    (data : string) (z z' : json) :
  load_people "CITATION.cff" "authors" w = (w, Ok A) →
  load_people "contributors.yaml" "contributors" w = (w, Ok B) →
  files w !! ".zenodo.json" = Some data →
  json_loads data = Ok z →
  merge z A B = Ok z' →
  let text := json_dumps {| indent := Some 4; sort_keys := true |} z' in
  sync true w
  = ({| files := <[".zenodo.json" := text]> (files w); stdout := stdout w |},
     Ok tt)
  ∧ sync false w
    = ({| files := files w; stdout := stdout w +:+ text +:+ newline |}, Ok tt).
Proof.
  intros HA HB Hf Hz Hm text.
  unfold SyncContributors.sync, bind.
  rewrite HA, HB. unfold read_file, lift. rewrite Hf, Hz, Hm.
  done.
Qed.

End SyncProperties.

(** The sample working directory meets the assumptions of [C7]. *)
Lemma sync_writes_or_prints_witness :
  let text :=
    sample_json_dumps {| indent := Some 4; sort_keys := true |}
      (JObj [("creators",
              JArr [JObj [("name", JStr "Jane Doe"); ("affiliation", JStr "X")]]);
             ("contributors",
              JArr [JObj [("name", JStr "Rick Roe"); ("affiliation", JStr "Y")]])])
  in
  sync sample_yaml_load sample_json_loads sample_json_dumps true sample_world
  = ({| files := <[".zenodo.json" := text]> (files sample_world);
        stdout := stdout sample_world |}, Ok tt)
  ∧ sync sample_yaml_load sample_json_loads sample_json_dumps false sample_world
    = ({| files := files sample_world;
          stdout := stdout sample_world +:+ text +:+ newline |}, Ok tt).
Proof.
  apply (sync_writes_or_prints sample_yaml_load sample_json_loads
           sample_json_dumps sample_world
           [{| last_names := "Doe"; first_names := "Jane"; affiliation := "X";
               orcid := None |}]
           [{| last_names := "Doe"; first_names := "Jane"; affiliation := "X";
               orcid := None |};
            {| last_names := "Roe"; first_names := "Rick"; affiliation := "Y";
               orcid := None |}]
           "{}" (JObj [])); by vm_compute.
Defined.

(** The record without affiliation, listed among the contributors of a
    working directory, meets the assumption of [C6]. *)
Lemma missing_field_raises_witness :
  (∃ e, from_citation_author no_affiliation = Raise e)
  ∧ ∃ e, sync sample_yaml_load sample_json_loads sample_json_dumps true
           sample_world_missing_field
         = (sample_world_missing_field, Raise e).
Proof.
  destruct (missing_field_raises sample_yaml_load sample_json_loads
              sample_json_dumps no_affiliation) as [H1 H2].
  - right; right. by vm_compute.
  - split; [exact H1 |].
    apply H2. right.
    exists "contributors: [Rick Roe, Pat Poe]",
      {[ "contributors" := [rick_roe; no_affiliation] ]},
      [rick_roe; no_affiliation].
    repeat split; [by vm_compute .. |].
    apply elem_of_cons. right. apply elem_of_cons. by left.
Defined.

End SyncSpec.

(** ** Properties of [flow/util/misc.py] *)

Module MiscSpec.

Import Misc.

(** *** Splitting and joining *)

Lemma split_not_nil sep s : split sep s ≠ [].
Proof.
  destruct s as [|c s]; simpl; [done |].
  destruct (Ascii.eqb c sep); [done |]. by destruct (split sep s).
Qed.

Lemma join_cons sep w ws :
  ws ≠ [] → join sep (w :: ws) = w +:+ sep +:+ join sep ws.
Proof. by destruct ws. Qed.

Lemma join_push sep c w ws :
  join sep (String c w :: ws) = String c (join sep (w :: ws)).
Proof. by destruct ws. Qed.

(** Joining what [split] produced gives the string back. *)
Lemma join_split (s : string) : join ":" (split ":" s) = s.
Proof.
  induction s as [|c s IH]; [done |].
  cbn [split]. destruct (Ascii.eqb_spec c ":") as [-> | _].
  - rewrite join_cons by apply split_not_nil. by rewrite IH.
  - pose proof (split_not_nil ":" s) as Hne.
    destruct (split ":" s) as [|w ws]; [done |].
    by rewrite join_push, IH.
Qed.

(** Line 139-140: the value set for the scope is the path, a colon and the
    prior value. *)
Lemma join_prepend (path pythonpath : string) :
  join ":" (path :: split ":" pythonpath) = path +:+ ":" +:+ pythonpath.
Proof. rewrite join_cons by apply split_not_nil. by rewrite join_split. Qed.

Lemma isabs_cons (c : ascii) (s : string) :
  isabs (String c s) = Ascii.eqb c "/".
Proof. by destruct c as [[] [] [] [] [] [] [] []]. Qed.

(** *** Process states *)

Lemma set_cwd_same s : set_cwd (cwd s) s = s.
Proof. by destruct s. Qed.

Section MiscProperties.

Context {fs : FileSystem}.

(** *** What the scan of lines 133-136 decides *)

(** A character passes the test of line 134 exactly when it is a slash and
    the root directory is the canonical form of the path. *)
Lemma same_path_character here path (c : ascii) :
  same_path here path (String c EmptyString)
  = Ascii.eqb c "/" && String.eqb (realpath here "/") path.
Proof.
  unfold same_path. rewrite isabs_cons.
  by destruct (Ascii.eqb_spec c "/") as [-> | _].
Qed.

(** So the scan succeeds exactly when the value has a slash somewhere and the
    path is the root directory. *)
Lemma scan_characters here path pythonpath :
  existsb (same_path here path) (characters pythonpath)
  = char_in "/" pythonpath
    && String.eqb (realpath here "/") path.
Proof.
  induction pythonpath as [|c v IH]; [done |].
  cbn [characters existsb char_in].
  rewrite IH, same_path_character, (Ascii.eqb_sym c).
  destruct (Ascii.eqb "/" c), (String.eqb _ path),
    (char_in "/" v); done.
Qed.

(** *** The three branches of [add_path_to_environment_pythonpath] *)

Local Abbreviation PYTHONPATH := "PYTHONPATH" (only parsing).

(** Unset or empty: the variable is the canonical path for the body and is
    deleted afterwards. *)
Lemma add_path_falsy path body s :
  truthy (environ s !! PYTHONPATH) = false →
  add_path_to_environment_pythonpath path body s
  = let (s1, r) :=
      body (set_environ (<[PYTHONPATH := realpath (cwd s) path]> (environ s)) s)
    in match environ s1 !! PYTHONPATH with
       | Some _ => (set_environ (delete PYTHONPATH (environ s1)) s1, r)
       | None => (s1, Raise (KeyError PYTHONPATH))
       end.
Proof.
  intros H.
  unfold add_path_to_environment_pythonpath, bind, os_path_realpath,
    environ_get, gets, try_finally, environ_set, environ_del, modify.
  destruct (environ s !! PYTHONPATH) as [[|c v]|]; try done;
    destruct (body _) as [s1 r]; by destruct (environ s1 !! PYTHONPATH).
Qed.

(** Non-empty and the scan succeeds: the scope is the body and nothing
    else. *)
Lemma add_path_found path body s v :
  environ s !! PYTHONPATH = Some v → v ≠ EmptyString →
  existsb (same_path (cwd s) (realpath (cwd s) path)) (characters v) = true →
  add_path_to_environment_pythonpath path body s = body s.
Proof.
  intros Hv Hne Hscan.
  unfold add_path_to_environment_pythonpath, bind, os_path_realpath,
    environ_get, scan_pythonpath, gets.
  rewrite Hv. destruct v as [|c v]; [done |]. by rewrite Hscan.
Qed.

(** Non-empty and the scan fails: the canonical path is put in front for the
    body, and the prior value is assigned back afterwards. *)
Lemma add_path_prepend path body s v :
  environ s !! PYTHONPATH = Some v → v ≠ EmptyString →
  existsb (same_path (cwd s) (realpath (cwd s) path)) (characters v) = false →
  add_path_to_environment_pythonpath path body s
  = let (s1, r) :=
      body (set_environ
              (<[PYTHONPATH := realpath (cwd s) path +:+ ":" +:+ v]> (environ s)) s)
    in (set_environ (<[PYTHONPATH := v]> (environ s1)) s1, r).
Proof.
  intros Hv Hne Hscan.
  unfold add_path_to_environment_pythonpath, bind, os_path_realpath,
    environ_get, scan_pythonpath, gets, try_finally, environ_set, modify.
  rewrite Hv. destruct v as [|c v]; [done |]. rewrite Hscan, join_prepend.
  by destruct (body _).
Qed.

(** *** Leaving the search-path scope *)

(** Unset before, unset after, whatever the body did. *)
Lemma pythonpath_unset_after path body s :
  environ s !! PYTHONPATH = None →
  environ (add_path_to_environment_pythonpath path body s).1 !! PYTHONPATH
  = None.
Proof.
  intros H. rewrite add_path_falsy by by rewrite H.
  destruct (body _) as [s1 r].
  destruct (environ s1 !! PYTHONPATH) eqn:E; simpl; [| done].
  apply lookup_delete_eq.
Qed.

(** A non-empty value is back after the scope: assigned back where the scope
    changed it, and untouched by the scope where the scan succeeded (there it
    is what the body left). *)
Lemma pythonpath_value_after path body s v :
  environ s !! PYTHONPATH = Some v → v ≠ EmptyString →
  (existsb (same_path (cwd s) (realpath (cwd s) path)) (characters v) = true →
   environ (body s).1 !! PYTHONPATH = Some v) →
  environ (add_path_to_environment_pythonpath path body s).1 !! PYTHONPATH
  = Some v.
Proof.
  intros Hv Hne Hbody.
  destruct (existsb (same_path (cwd s) (realpath (cwd s) path)) (characters v))
    eqn:Hscan.
  - rewrite (add_path_found _ _ _ v) by done. by apply Hbody.
  - clear Hbody. rewrite (add_path_prepend _ _ _ v) by done.
    destruct (body _) as [s1 r]. simpl. apply lookup_insert_eq.
Qed.

(** [C2] A variable set to the empty string before the scope is not the
    empty string after it: the scope deletes it, whatever the path and the
    body. *)
Theorem empty_pythonpath_deleted path body s :
  environ s !! PYTHONPATH = Some EmptyString →
  environ (add_path_to_environment_pythonpath path body s).1 !! PYTHONPATH
  = None.
Proof.
  intros H. rewrite add_path_falsy by by rewrite H.
  destruct (body _) as [s1 r].
  destruct (environ s1 !! PYTHONPATH) eqn:E; simpl; [| done].
  apply lookup_delete_eq.
Qed.

(** [C3] With the variable set to "/usr/lib" and the path "/usr/lib", both
    canonical, the only colon-delimited entry is absolute and has the
    canonical form of the path, yet the scope does not take the no-mutation
    branch: the body runs with the value "/usr/lib:/usr/lib".  The scan went
    over the characters of the value, none of which is the path. *)
Theorem listed_entry_not_found body s :
  environ s !! PYTHONPATH = Some "/usr/lib" →
  realpath (cwd s) "/usr/lib" = "/usr/lib" →
  realpath (cwd s) "/" = "/" →
  entry_listed (cwd s) "/usr/lib" "/usr/lib" = true
  ∧ add_path_to_environment_pythonpath "/usr/lib" body s
    = let (s1, r) :=
        body (set_environ
                (<[PYTHONPATH := "/usr/lib:/usr/lib"]> (environ s)) s)
      in (set_environ (<[PYTHONPATH := "/usr/lib"]> (environ s1)) s1, r).
Proof.
  intros Hv Hp Hroot. split.
  - unfold entry_listed, same_path. simpl. by rewrite Hp.
  - rewrite (add_path_prepend _ _ _ "/usr/lib"); [by rewrite Hp | done | done |].
    rewrite scan_characters, Hroot, Hp. done.
Qed.

(** The other way round: with the variable set to "/usr" and the path "/",
    no entry is the path, yet the scope runs the body and changes nothing. *)
Lemma unlisted_path_found body s :
  environ s !! PYTHONPATH = Some "/usr" →
  realpath (cwd s) "/usr" = "/usr" →
  realpath (cwd s) "/" = "/" →
  entry_listed (cwd s) "/" "/usr" = false
  ∧ add_path_to_environment_pythonpath "/" body s = body s.
Proof.
  intros Hv Hp Hroot. split.
  - unfold entry_listed, same_path. simpl. by rewrite Hp, Hroot.
  - apply (add_path_found _ _ _ "/usr"); [done | done |].
    rewrite scan_characters, Hroot. done.
Qed.

(** *** The working-directory scope *)

(** What [switch_to_directory] does with a target, by the outcome of the
    first [os.chdir]. *)
Lemma switch_to_directory_enter root body s d :
  is_working_directory (cwd s) →
  chdir_target (cwd s) root = Some d →
  switch_to_directory (Some root) body s
  = (set_cwd (cwd s) (body (set_cwd d s)).1, (body (set_cwd d s)).2).
Proof.
  intros HD Hd.
  unfold switch_to_directory, bind, getcwd, gets, try_finally, chdir.
  rewrite Hd. destruct (body _) as [s1 r]. by rewrite HD.
Qed.

Lemma switch_to_directory_refused root body s :
  is_working_directory (cwd s) →
  chdir_target (cwd s) root = None →
  switch_to_directory (Some root) body s = (s, Raise OSError).
Proof.
  intros HD Hd.
  unfold switch_to_directory, bind, getcwd, gets, try_finally, chdir.
  by rewrite Hd, HD, set_cwd_same.
Qed.

(** [C4] From a working directory [D]: with a target [T], the body runs in
    the directory [os.chdir(T)] leads to, which is [T] itself when [T] names
    a directory the way [os.getcwd()] does, and after the scope the working
    directory is [D] again, the outcome of the body (a value or a raised
    exception) being passed on; the rest of the state is as the body left it.
    When the first [os.chdir] fails the body is not run and the directory is
    still [D].  With no target the scope is the body alone. *)
Theorem switch_to_directory_restores (body : M Process unit) (s : Process) :
  is_working_directory (cwd s) →
  switch_to_directory None body s = body s
  ∧ ∀ T,
      cwd (switch_to_directory (Some T) body s).1 = cwd s
      ∧ (∀ d, chdir_target (cwd s) T = Some d →
           cwd (set_cwd d s) = d
           ∧ switch_to_directory (Some T) body s
             = (set_cwd (cwd s) (body (set_cwd d s)).1,
                (body (set_cwd d s)).2))
      ∧ (is_working_directory T →
           switch_to_directory (Some T) body s
           = (set_cwd (cwd s) (body (set_cwd T s)).1, (body (set_cwd T s)).2))
      ∧ (chdir_target (cwd s) T = None →
           switch_to_directory (Some T) body s = (s, Raise OSError)).
Proof.
  intros HD. split; [done |]. intros T.
  split; [| split; [| split]].
  - destruct (chdir_target (cwd s) T) as [d|] eqn:Hd.
    + by rewrite (switch_to_directory_enter _ _ _ d).
    + by rewrite switch_to_directory_refused.
  - intros d Hd. split; [done |]. by apply switch_to_directory_enter.
  - intros HT. by apply switch_to_directory_enter.
  - by apply switch_to_directory_refused.
Qed.

(** *** The log-redirection scope *)

Lemma existsb_is_handler_fresh h hs n :
  Forall (λ h', hid h' < n) hs → hid h = n →
  existsb (is_handler h) hs = false.
Proof.
  intros Hall Hh. induction Hall as [|h' hs Hlt _ IH]; [done |].
  simpl. rewrite IH, orb_false_r. unfold is_handler.
  apply Nat.eqb_neq. lia.
Qed.

Lemma remove_first_absent h hs :
  existsb (is_handler h) hs = false → remove_first h hs = hs.
Proof.
  induction hs as [|h' hs IH]; [done |]. simpl.
  destruct (is_handler h h'); [done |]. simpl. intros H. by rewrite IH.
Qed.

Lemma remove_first_last h hs :
  existsb (is_handler h) hs = false → remove_first h (hs ++ [h]) = hs.
Proof.
  induction hs as [|h' hs IH]; simpl.
  - unfold is_handler. by rewrite Nat.eqb_refl.
  - destruct (is_handler h h'); [done |]. simpl. intros H. by rewrite IH.
Qed.

Lemma handlers_set_loggers_eq logger hs m s :
  handlers logger (set_loggers (<[logger := hs]> m) s) = hs.
Proof. unfold handlers. simpl. by rewrite lookup_insert_eq. Qed.

Lemma handlers_set_loggers_ne logger other hs m s :
  other ≠ logger →
  handlers other (set_loggers (<[logger := hs]> m) s) = default [] (m !! other).
Proof. intros H. unfold handlers. simpl. by rewrite lookup_insert_ne. Qed.

(** [Logger.removeHandler] takes the first occurrence of the handler out of
    the list of its logger and touches nothing else. *)
Lemma removeHandler_handlers logger h s :
  handlers logger (removeHandler logger h s).1
  = remove_first h (handlers logger s).
Proof.
  unfold removeHandler, modify. simpl.
  destruct (existsb (is_handler h) (handlers logger s)) eqn:E.
  - apply handlers_set_loggers_eq.
  - by rewrite remove_first_absent.
Qed.

Lemma removeHandler_other logger other h s :
  other ≠ logger →
  handlers other (removeHandler logger h s).1 = handlers other s.
Proof.
  intros H. unfold removeHandler, modify. simpl.
  destruct (existsb _ _); [| done]. by rewrite handlers_set_loggers_ne.
Qed.

Lemma removeHandler_frame logger h s :
  cwd (removeHandler logger h s).1 = cwd s
  ∧ environ (removeHandler logger h s).1 = environ s.
Proof. unfold removeHandler, modify. simpl. by destruct (existsb _ _). Qed.

(** When the log file can be opened, the scope is: add the new handler, run
    the body, remove the new handler, pass the outcome of the body on. *)
Lemma redirect_log_run job filename formatter logger body s :
  let name := default "root" logger in
  can_open (cwd s) (fn job "run.log") = true →
  fresh_for name s →
  redirect_log job filename formatter logger body s
  = ((removeHandler name (new_handler job formatter s)
        (body (logging_to job formatter logger s)).1).1,
     (body (logging_to job formatter logger s)).2).
Proof.
  intros name Hopen Hfresh.
  unfold redirect_log, bind, FileHandler. rewrite Hopen.
  fold name. unfold addHandler, modify, try_finally.
  change (setFormatter _ _) with (new_handler job formatter s).
  change (handlers name (set_next_id _ s)) with (handlers name s).
  rewrite (existsb_is_handler_fresh _ _ (next_id s)) by done.
  change (set_loggers _ _) with (logging_to job formatter logger s).
  destruct (body _) as [s1 r]. done.
Qed.

(** When it cannot, nothing is added and the body is not run. *)
Lemma redirect_log_refused job filename formatter logger body s :
  can_open (cwd s) (fn job "run.log") = false →
  redirect_log job filename formatter logger body s = (s, Raise OSError).
Proof.
  intros Hopen. unfold redirect_log, bind, FileHandler. by rewrite Hopen.
Qed.

Lemma remove_first_other h h' hs :
  is_handler h h' = false → h' ∈ remove_first h hs ↔ h' ∈ hs.
Proof.
  intros Hne. induction hs as [|x hs IH]; [done |]. simpl.
  destruct (is_handler h x) eqn:E.
  - rewrite elem_of_cons. split; [tauto |].
    intros [-> | H]; [congruence | done].
  - by rewrite !elem_of_cons, IH.
Qed.

Lemma handlers_logging_to job formatter logger s :
  handlers (default "root" logger) (logging_to job formatter logger s)
  = handlers (default "root" logger) s ++ [new_handler job formatter s].
Proof. unfold logging_to. by rewrite handlers_set_loggers_eq. Qed.

(** [C9] For every prior handler list of the chosen logger (the root logger
    when none is given): the body starts with that list extended by one new
    file handler and nothing else changed; after the scope, whether the body
    returned or raised, that handler and only that one has been taken out of
    the list the body left, the other loggers are as the body left them, and
    the outcome of the body is passed on.  So if the body left the list as
    it found it, the list is the prior one again. *)
Theorem redirect_log_restores_handlers (job : Job) (filename : string)
    (formatter : option Formatter) (logger : option string)
    (body : M Process unit) (s : Process) :
  let name := default "root" logger in
  let h := new_handler job formatter s in
  let s1 := logging_to job formatter logger s in
  let s2 := (body s1).1 in
  let s' := (redirect_log job filename formatter logger body s).1 in
  can_open (cwd s) (fn job "run.log") = true →
  fresh_for name s →
  (existsb (is_handler h) (handlers name s) = false
   ∧ handlers name s1 = handlers name s ++ [h]
   ∧ (∀ other, other ≠ name → handlers other s1 = handlers other s)
   ∧ cwd s1 = cwd s ∧ environ s1 = environ s)
  ∧ (redirect_log job filename formatter logger body s).2 = (body s1).2
  ∧ handlers name s' = remove_first h (handlers name s2)
  ∧ (∀ h', is_handler h h' = false →
       h' ∈ handlers name s' ↔ h' ∈ handlers name s2)
  ∧ (∀ other, other ≠ name → handlers other s' = handlers other s2)
  ∧ (handlers name s2 = handlers name s1 →
       handlers name s' = handlers name s).
Proof.
  intros name h s1 s2 s' Hopen Hfresh.
  assert (existsb (is_handler h) (handlers name s) = false) as Hnew
    by by apply (existsb_is_handler_fresh _ _ (next_id s)).
  assert (handlers name s' = remove_first h (handlers name s2)) as Hafter.
  { unfold s'. rewrite redirect_log_run by done.
    apply removeHandler_handlers. }
  split; [| split; [| split; [| split; [| split]]]].
  - split; [done |]. split; [apply handlers_logging_to |].
    split; [| done].
    intros other Hne. unfold s1, logging_to.
    by rewrite handlers_set_loggers_ne.
  - by rewrite redirect_log_run.
  - done.
  - intros h' Hh'. rewrite Hafter. by apply remove_first_other.
  - intros other Hne. unfold s'. rewrite redirect_log_run by done.
    by apply removeHandler_other.
  - intros Hkept. rewrite Hafter, Hkept. unfold s1, name.
    rewrite handlers_logging_to. by apply remove_first_last.
Qed.

(** [C10] The [filename] argument plays no part: the scope is the same
    computation for every value of it, and the handler it attaches is opened
    on [job.fn('run.log')], which is not the given filename unless the two
    happen to be the same path. *)
Theorem redirect_log_ignores_filename (job : Job) (filename : string)
    (formatter : option Formatter) (logger : option string)
    (body : M Process unit) (s : Process) :
  let name := default "root" logger in
  let s1 := logging_to job formatter logger s in
  can_open (cwd s) (fn job "run.log") = true →
  fresh_for name s →
  (∀ filename',
     redirect_log job filename' formatter logger body
     = redirect_log job filename formatter logger body)
  ∧ ∃ h,
      handlers name s1 = handlers name s ++ [h]
      ∧ Misc.filename h = fn job "run.log"
      ∧ (filename ≠ fn job "run.log" → Misc.filename h ≠ filename)
      ∧ redirect_log job filename formatter logger body s
        = ((removeHandler name h (body s1).1).1, (body s1).2).
Proof.
  intros name s1 Hopen Hfresh. split; [done |].
  exists (new_handler job formatter s).
  split; [apply handlers_logging_to |].
  split; [done |]. split; [by intros H |].
  by apply redirect_log_run.
Qed.

End MiscProperties.

(** The sample process, in a directory from which every path resolves,
    meets the assumption of [C4]. *)
Lemma switch_to_directory_restores_witness :
  cwd (switch_to_directory (fs := plain_fs) (Some "/tmp")
         (raise (UserError "boom")) (sample_process None)).1 = "/home/u".
Proof.
  destruct (switch_to_directory_restores (fs := plain_fs)
              (raise (UserError "boom")) (sample_process None)) as [_ H].
  - intros here. reflexivity.
  - destruct (H "/tmp") as [Hcwd _]. exact Hcwd.
Defined.

(** The sample process, whose root logger has one older handler, meets the
    assumptions of [C9]. *)
Lemma redirect_log_restores_handlers_witness :
  handlers "root"
    (redirect_log (fs := plain_fs) sample_job "run.log" None None
       (raise (UserError "boom")) (sample_process None)).1
  = handlers "root" (sample_process None).
Proof.
  destruct (redirect_log_restores_handlers (fs := plain_fs) sample_job
              "run.log" None None (raise (UserError "boom"))
              (sample_process None)) as (_ & _ & _ & _ & _ & H).
  - reflexivity.
  - repeat constructor.
  - apply H. reflexivity.
Defined.

(** And those of [C10], with a filename that is not the job's run.log. *)
Lemma redirect_log_ignores_filename_witness :
  ∃ h, handlers "root"
         (logging_to sample_job None None (sample_process None))
       = handlers "root" (sample_process None) ++ [h]
       ∧ filename h = "/ws/job/run.log".
Proof.
  destruct (redirect_log_ignores_filename (fs := plain_fs) sample_job
              "elsewhere.log" None None (ret tt) (sample_process None))
    as (_ & h & H1 & H2 & _).
  - reflexivity.
  - repeat constructor.
  - exists h. split; [exact H1 | exact H2].
Defined.

(** A process started with an empty PYTHONPATH meets the assumption of
    [C2]. *)
Lemma empty_pythonpath_deleted_witness :
  environ (sample_process (Some "")) !! "PYTHONPATH" = Some ""
  ∧ environ
      (add_path_to_environment_pythonpath (fs := plain_fs) "/home/u/project"
         (ret tt) (sample_process (Some ""))).1 !! "PYTHONPATH" = None.
Proof.
  split; [by vm_compute |].
  apply (empty_pythonpath_deleted (fs := plain_fs)). by vm_compute.
Defined.

(** The file system without links meets the assumptions of [C3]. *)
Lemma listed_entry_not_found_witness :
  entry_listed (fs := plain_fs) "/home/u" "/usr/lib" "/usr/lib" = true
  ∧ add_path_to_environment_pythonpath (fs := plain_fs) "/usr/lib" (ret tt)
      (sample_process (Some "/usr/lib"))
    = let (s1, r) :=
        ret tt (set_environ
                  (<["PYTHONPATH" := "/usr/lib:/usr/lib"]>
                     (environ (sample_process (Some "/usr/lib"))))
                  (sample_process (Some "/usr/lib")))
      in (set_environ (<["PYTHONPATH" := "/usr/lib"]> (environ s1)) s1, r).
Proof.
  apply (listed_entry_not_found (fs := plain_fs) (ret tt)
           (sample_process (Some "/usr/lib"))); by vm_compute.
Defined.

End MiscSpec.

(** ** Further properties of [.sync-contributors.py] *)

Module SyncMore.

Import SyncContributors SyncSamples SyncSpec.

(** *** Which records make a contributor *)

(** [from_citation_author] succeeds exactly on the records that have the
    three required keys, and no key besides these and orcid; the fields of
    the contributor are the values of the record. *)
Theorem from_citation_author_accepts (r : gmap string string)
    (c : Contributor) :
  from_citation_author r = Ok c
  ↔ r !! "family-names" = Some (last_names c)
    ∧ r !! "given-names" = Some (first_names c)
    ∧ r !! "affiliation" = Some (affiliation c)
    ∧ r !! "orcid" = orcid c
    ∧ ∀ k, is_Some (r !! k) →
        k ∈ ["family-names"; "given-names"; "affiliation"; "orcid"].
Proof.
  unfold from_citation_author, dict_pop, Contributor_init.
  split.
  - destruct (r !! "family-names") as [last|] eqn:Hl; [| done].
    rewrite lookup_delete_ne by done.
    destruct (r !! "given-names") as [first|] eqn:Hf; [| done].
    case_bool_decide as Hdup; [done |].
    case_bool_decide as Hdom; [| done].
    rewrite !lookup_delete_ne by done.
    destruct (r !! "affiliation") as [a|] eqn:Ha; [| done].
    intros [= <-]. simpl. repeat split; try done.
    intros k Hk. rewrite !elem_of_cons.
    destruct (decide (k = "family-names")) as [-> | H1]; [by left |].
    destruct (decide (k = "given-names")) as [-> | H2]; [by right; left |].
    assert (k ∈ dom (delete "given-names" (delete "family-names" r))) as Hin.
    { apply elem_of_dom. by rewrite !lookup_delete_ne. }
    apply Hdom, elem_of_union in Hin as [Hin | Hin];
      apply elem_of_singleton in Hin; tauto.
  - intros (Hl & Hf & Ha & Ho & Hkeys).
    rewrite Hl. rewrite lookup_delete_ne by done. rewrite Hf.
    rewrite bool_decide_false; cycle 1.
    { intros [H | H]; rewrite !lookup_delete_ne in H by done;
        apply Hkeys in H; rewrite !elem_of_cons, elem_of_nil in H;
        intuition discriminate. }
    rewrite bool_decide_true; cycle 1.
    { intros k Hk. apply elem_of_dom in Hk.
      destruct (decide (k = "given-names")) as [-> | H2];
        [by rewrite lookup_delete_eq in Hk; destruct Hk |].
      rewrite lookup_delete_ne in Hk by done.
      destruct (decide (k = "family-names")) as [-> | H1];
        [by rewrite lookup_delete_eq in Hk; destruct Hk |].
      rewrite lookup_delete_ne in Hk by done.
      apply Hkeys in Hk. rewrite !elem_of_cons, elem_of_nil in Hk.
      rewrite elem_of_union, !elem_of_singleton. tauto. }
    rewrite !lookup_delete_ne by done. rewrite Ha, Ho. by destruct c.
Qed.

(** *** The emitted identifier *)

Lemma lstrip_fixed chars c rest :
  char_in c chars = false → lstrip chars (String c rest) = String c rest.
Proof. intros H. simpl. by rewrite H. Qed.

Lemma lstrip_head chars s c rest :
  lstrip chars s = String c rest → char_in c chars = false.
Proof.
  induction s as [|x s IH]; simpl; [done |].
  destruct (char_in x chars) eqn:E; [done |]. by intros [= <- <-].
Qed.

Lemma lstrip_idempotent chars s :
  lstrip chars (lstrip chars s) = lstrip chars s.
Proof.
  destruct (lstrip chars s) as [|c rest] eqn:E; [done |].
  apply lstrip_fixed. by apply lstrip_head in E.
Qed.

(** The record [as_zenodo_creator] returns has the name (first names, a
    space, last names) and the affiliation, and an orcid entry exactly when
    the identifier is a non-empty string.  The emitted identifier is a fixed
    point of the normalisation and begins with none of the characters of
    "https://orcid.org/". *)
Theorem as_zenodo_creator_fields (c : Contributor) :
  ∃ items,
    as_zenodo_creator c = JObj items
    ∧ dict_get "name" items
      = Some (JStr (first_names c +:+ " " +:+ last_names c))
    ∧ dict_get "affiliation" items = Some (JStr (affiliation c))
    ∧ (orcid c = None ∨ orcid c = Some EmptyString →
       dict_get "orcid" items = None)
    ∧ ∀ o, orcid c = Some o → o ≠ EmptyString →
        let o' := lstrip "https://orcid.org/" o in
        dict_get "orcid" items = Some (JStr o')
        ∧ lstrip "https://orcid.org/" o' = o'
        ∧ ∀ ch rest, o' = String ch rest →
            char_in ch "https://orcid.org/" = false.
Proof.
  unfold as_zenodo_creator.
  destruct (orcid c) as [[|ch o]|]; eexists; (split; [reflexivity |]);
    (split; [done |]); (split; [done |]); split.
  - done.
  - by intros o [= <-] Hne.
  - intros [H | H]; discriminate.
  - intros o' [= <-] _. split; [done |].
    split; [apply lstrip_idempotent |].
    intros ch' rest Heq. by apply lstrip_head in Heq.
  - done.
  - intros o H. discriminate.
Qed.

Section SyncMoreProperties.

Variable yaml_load : string → result (gmap string (list (gmap string string))).
Variable json_loads : string → result json.
Variable json_dumps : dump_options → json → string.

Local Abbreviation load_people := (load_people yaml_load).
Local Abbreviation sync := (sync yaml_load json_loads json_dumps).

(** *** Failures *)




(** A target file whose JSON value is not an object (a list, a string, a
    number, null) makes the first assignment raise [TypeError]; the file is
    left as it was. *)
Theorem sync_target_not_an_object (in_place : bool) (w : World)
    (A B : list Contributor) (data : string) (z : json) :
  load_people "CITATION.cff" "authors" w = (w, Ok A) →
  load_people "contributors.yaml" "contributors" w = (w, Ok B) →
  files w !! ".zenodo.json" = Some data →
  json_loads data = Ok z →
  (∀ d, z ≠ JObj d) →
  sync in_place w = (w, Raise TypeError).
Proof.
  intros HA HB Hf Hz Hd.
  unfold SyncContributors.sync, bind. rewrite HA, HB.
  unfold read_file, lift. rewrite Hf, Hz. by rewrite merge_not_dict.
Qed.

(** *** Running [sync] twice *)






End SyncMoreProperties.



Lemma sync_target_not_an_object_witness :
  sync sample_yaml_load table_json_loads table_json_dumps true
    sample_world_list_target = (sample_world_list_target, Raise TypeError).
Proof.
  apply (sync_target_not_an_object sample_yaml_load table_json_loads
           table_json_dumps true sample_world_list_target
           [{| last_names := "Doe"; first_names := "Jane"; affiliation := "X";
               orcid := None |}]
           [{| last_names := "Doe"; first_names := "Jane"; affiliation := "X";
               orcid := None |};
            {| last_names := "Roe"; first_names := "Rick"; affiliation := "Y";
               orcid := None |}]
           "[]" (JArr [])); by vm_compute.
Defined.


End SyncMore.

(** ** Further properties of the context managers of [flow/util/misc.py] *)

Module MiscMore.

Import Misc MiscTools MiscSpec.

Section MiscMoreProperties.

Context {fs : FileSystem}.

Local Abbreviation PYTHONPATH := "PYTHONPATH" (only parsing).

(** *** The search-path scope *)

(** With the variable unset or empty, the body starts with the variable set
    to the canonical path and everything else as before.  Afterwards the
    variable is unset.  If the body left the variable set, the scope passes
    the outcome of the body on; if the body removed the variable, the [del]
    of line 151 raises [KeyError], which replaces the outcome of the body. *)
Theorem pythonpath_scope_sets_and_deletes (path : string)
    (body : M Process unit) (s : Process) :
  truthy (environ s !! PYTHONPATH) = false →
  let s0 :=
    set_environ (<[PYTHONPATH := realpath (cwd s) path]> (environ s)) s in
  let after := add_path_to_environment_pythonpath path body s in
  environ after.1 !! PYTHONPATH = None
  ∧ (is_Some (environ (body s0).1 !! PYTHONPATH) →
     after
     = (set_environ (delete PYTHONPATH (environ (body s0).1)) (body s0).1,
        (body s0).2))
  ∧ (environ (body s0).1 !! PYTHONPATH = None →
     after = ((body s0).1, Raise (KeyError PYTHONPATH))).
Proof.
  intros Hf s0 after. unfold after. rewrite add_path_falsy by done.
  fold s0. destruct (body s0) as [s1 r]. simpl.
  destruct (environ s1 !! PYTHONPATH) eqn:E; simpl.
  - split; [apply lookup_delete_eq |]. split; [done |]. discriminate.
  - split; [done |]. split; [| done]. by intros [? ?].
Qed.

(** With a non-empty value that has no slash, or a path whose canonical form
    is not that of the root directory, the body starts with the canonical
    path, a colon and the prior value; afterwards the variable is the prior
    value whatever the body did to it, the rest of the state is as the body
    left it, and the outcome of the body is passed on. *)
Theorem pythonpath_scope_prepends_and_restores (path : string)
    (body : M Process unit) (s : Process) (v : string) :
  environ s !! PYTHONPATH = Some v →
  v ≠ EmptyString →
  char_in "/" v = false ∨ realpath (cwd s) "/" ≠ realpath (cwd s) path →
  let s0 :=
    set_environ
      (<[PYTHONPATH := realpath (cwd s) path +:+ ":" +:+ v]> (environ s)) s in
  let after := add_path_to_environment_pythonpath path body s in
  after = (set_environ (<[PYTHONPATH := v]> (environ (body s0).1)) (body s0).1,
           (body s0).2)
  ∧ environ after.1 !! PYTHONPATH = Some v.
Proof.
  intros Hv Hne Hscan s0 after.
  assert (after = (set_environ (<[PYTHONPATH := v]> (environ (body s0).1))
                     (body s0).1, (body s0).2)) as ->.
  { unfold after. rewrite (add_path_prepend _ _ _ v); [| done | done |].
    - fold s0. by destruct (body s0).
    - rewrite scan_characters.
      destruct Hscan as [-> | Hroot]; [done |].
      apply String.eqb_neq in Hroot. rewrite Hroot. apply andb_false_r. }
  split; [done |]. simpl. apply lookup_insert_eq.
Qed.

(** With a non-empty value that has a slash anywhere, and a path whose
    canonical form is that of the root directory, the scope is the body and
    nothing else: the variable is neither changed before nor restored
    after. *)
Theorem pythonpath_scope_root_is_bare (path : string) (body : M Process unit)
    (s : Process) (v : string) :
  environ s !! PYTHONPATH = Some v →
  char_in "/" v = true →
  realpath (cwd s) "/" = realpath (cwd s) path →
  add_path_to_environment_pythonpath path body s = body s.
Proof.
  intros Hv Hslash Hroot.
  apply (add_path_found _ _ _ v); [done | by intros -> |].
  rewrite scan_characters, Hslash. simpl. by apply String.eqb_eq.
Qed.

(** [add_cwd_to_environment_pythonpath] in a process whose working directory
    is its own canonical form and whose variable is unset: the body starts
    with the variable equal to the working directory, and the variable is
    unset afterwards. *)
Theorem add_cwd_sets_working_directory (body : M Process unit) (s : Process) :
  environ s !! PYTHONPATH = None →
  realpath (cwd s) (cwd s) = cwd s →
  let s0 := set_environ (<[PYTHONPATH := cwd s]> (environ s)) s in
  let after := add_cwd_to_environment_pythonpath body s in
  environ s0 !! PYTHONPATH = Some (cwd s)
  ∧ environ after.1 !! PYTHONPATH = None
  ∧ (is_Some (environ (body s0).1 !! PYTHONPATH) →
     after
     = (set_environ (delete PYTHONPATH (environ (body s0).1)) (body s0).1,
        (body s0).2)).
Proof.
  intros Hv Hcwd s0 after.
  assert (after = add_path_to_environment_pythonpath (cwd s) body s) as ->
    by reflexivity.
  rewrite add_path_falsy by by rewrite Hv.
  rewrite Hcwd. fold s0. split; [apply lookup_insert_eq |].
  destruct (body s0) as [s1 r]. simpl.
  destruct (environ s1 !! PYTHONPATH) eqn:E; simpl.
  - split; [apply lookup_delete_eq | done].
  - split; [done |]. by intros [? ?].
Qed.

(** *** The log-redirection scope *)

(** When run.log of the job cannot be opened, the scope raises [OSError]
    before anything else: the body is not run and the process state, the
    handler lists included, is untouched. *)
Theorem redirect_log_unopenable (job : Job) (filename : string)
    (formatter : option Formatter) (logger : option string)
    (body : M Process unit) (s : Process) :
  can_open (cwd s) (fn job "run.log") = false →
  redirect_log job filename formatter logger body s = (s, Raise OSError).
Proof.
  intros Hopen. unfold redirect_log, bind, FileHandler. by rewrite Hopen.
Qed.

(** *** The two scopes together *)

(** [switch_to_directory(T)] around [add_cwd_to_environment_pythonpath()],
    with the variable unset before: the body starts in the target directory
    with the variable naming that directory; after both scopes the working
    directory is the starting one and the variable is unset again, and the
    outcome is that of the body unless the body removed the variable. *)
Theorem switch_then_add_cwd (T : string) (body : M Process unit)
    (s : Process) (d : string) :
  is_working_directory (cwd s) →
  chdir_target (cwd s) T = Some d →
  realpath d d = d →
  environ s !! PYTHONPATH = None →
  let s0 := set_environ (<[PYTHONPATH := d]> (environ s)) (set_cwd d s) in
  let after :=
    switch_to_directory (Some T) (add_cwd_to_environment_pythonpath body) s in
  (cwd s0 = d ∧ environ s0 !! PYTHONPATH = Some d)
  ∧ cwd after.1 = cwd s
  ∧ environ after.1 !! PYTHONPATH = None
  ∧ (is_Some (environ (body s0).1 !! PYTHONPATH) → after.2 = (body s0).2).
Proof.
  intros HD Hd Hreal Hv s0 after.
  split; [split; [done | apply lookup_insert_eq] |].
  unfold after. rewrite (switch_to_directory_enter _ _ _ d) by done.
  assert (add_cwd_to_environment_pythonpath body (set_cwd d s)
          = add_path_to_environment_pythonpath d body (set_cwd d s)) as ->
    by reflexivity.
  rewrite add_path_falsy by (simpl; by rewrite Hv).
  change (cwd (set_cwd d s)) with d. rewrite Hreal.
  change (set_environ _ (set_cwd d s)) with s0.
  destruct (body s0) as [s1 r]. simpl.
  destruct (environ s1 !! PYTHONPATH) eqn:E; simpl.
  - split; [done |]. split; [apply lookup_delete_eq | done].
  - split; [done |]. split; [done |]. by intros [? ?].
Qed.

End MiscMoreProperties.

Lemma pythonpath_scope_sets_and_deletes_witness :
  environ
    (add_path_to_environment_pythonpath (fs := plain_fs) "project" (ret tt)
       (sample_process None)).1 !! "PYTHONPATH" = None.
Proof.
  destruct (pythonpath_scope_sets_and_deletes (fs := plain_fs) "project"
              (ret tt) (sample_process None)) as [H _].
  - reflexivity.
  - exact H.
Defined.

Lemma pythonpath_scope_prepends_and_restores_witness :
  environ
    (add_path_to_environment_pythonpath (fs := plain_fs) "/home/u/project"
       (modify (set_environ ∅)) (sample_process (Some "/opt/lib:/usr/lib"))).1
    !! "PYTHONPATH" = Some "/opt/lib:/usr/lib".
Proof.
  destruct (pythonpath_scope_prepends_and_restores (fs := plain_fs)
              "/home/u/project" (modify (set_environ ∅))
              (sample_process (Some "/opt/lib:/usr/lib")) "/opt/lib:/usr/lib")
    as [_ H].
  - reflexivity.
  - done.
  - right. by vm_compute.
  - exact H.
Defined.

Lemma pythonpath_scope_root_is_bare_witness :
  add_path_to_environment_pythonpath (fs := plain_fs) "/"
    (modify (set_environ ∅)) (sample_process (Some "/opt/lib"))
  = modify (set_environ ∅) (sample_process (Some "/opt/lib")).
Proof.
  apply (pythonpath_scope_root_is_bare (fs := plain_fs) "/"
           (modify (set_environ ∅)) (sample_process (Some "/opt/lib"))
           "/opt/lib"); reflexivity.
Defined.

Lemma add_cwd_sets_working_directory_witness :
  environ
    (add_cwd_to_environment_pythonpath (fs := plain_fs) (ret tt)
       (sample_process None)).1 !! "PYTHONPATH" = None.
Proof.
  destruct (add_cwd_sets_working_directory (fs := plain_fs) (ret tt)
              (sample_process None)) as (_ & H & _).
  - reflexivity.
  - reflexivity.
  - exact H.
Defined.

Lemma redirect_log_unopenable_witness :
  redirect_log (fs := closed_fs) sample_job "run.log" None None (ret tt)
    (sample_process None)
  = (sample_process None, Raise OSError).
Proof.
  apply (redirect_log_unopenable (fs := closed_fs)). reflexivity.
Defined.

Lemma switch_then_add_cwd_witness :
  cwd (switch_to_directory (fs := plain_fs) (Some "/srv/project")
         (add_cwd_to_environment_pythonpath (fs := plain_fs) (ret tt))
         (sample_process None)).1 = "/home/u"
  ∧ environ
      (switch_to_directory (fs := plain_fs) (Some "/srv/project")
         (add_cwd_to_environment_pythonpath (fs := plain_fs) (ret tt))
         (sample_process None)).1 !! "PYTHONPATH" = None.
Proof.
  destruct (switch_then_add_cwd (fs := plain_fs) "/srv/project" (ret tt)
              (sample_process None) "/srv/project") as (_ & H1 & H2 & _).
  - intros here. reflexivity.
  - reflexivity.
  - reflexivity.
  - reflexivity.
  - split; [exact H1 | exact H2].
Defined.

End MiscMore.

(** ** Properties of the plain helpers of [flow/util/misc.py] *)

Module MiscToolsSpec.

Import SyncContributors MiscTools.

(** *** [_identical] *)

(** [_identical] holds exactly when any two elements of the sequence are
    equal; in particular it holds of the empty sequence. *)
Theorem identical_all_equal `{Countable A} (iterator : list A) :
  _identical iterator = true ↔ ∀ x y, x ∈ iterator → y ∈ iterator → x = y.
Proof.
  unfold _identical. rewrite bool_decide_eq_true. split.
  - intros Hsize x y Hx Hy.
    apply (elem_of_list_to_set (C := gset A)) in Hx, Hy.
    destruct (size (list_to_set iterator : gset A)) as [|[|n]] eqn:E; [| | lia].
    + apply size_empty_inv in E. by apply E in Hx.
    + by apply (size_singleton_inv _ _ _ E).
  - intros Hall. destruct iterator as [|x l].
    { change (size (∅ : gset A) ≤ 1). rewrite size_empty. lia. }
    assert ((list_to_set (x :: l) : gset A) = {[x]}) as ->.
    { apply set_eq. intros y.
      rewrite elem_of_list_to_set, elem_of_singleton. split.
      - intros Hy. apply Hall; [done | by left].
      - intros ->. by left. }
    rewrite size_singleton. lia.
Qed.

(** *** [_positive_int] *)

(** [_positive_int] returns a number exactly when [int] reads one from the
    argument and it is positive.  A number that is zero or negative raises
    [ArgumentTypeError] with the message "Value must be positive.", which the
    [except] clause does not replace; an argument [int] rejects raises it
    with the argument followed by " must be a positive integer.". *)
Theorem positive_int_outcomes (int : string → option Z) (value : string) :
  (∀ n, _positive_int int value = Returns n
        ↔ int value = Some n ∧ (0 < n)%Z)
  ∧ (∀ n, int value = Some n → (n ≤ 0)%Z →
       _positive_int int value
       = Raises (ArgumentTypeError "Value must be positive."))
  ∧ (int value = None →
     _positive_int int value
     = Raises (ArgumentTypeError (value +:+ " must be a positive integer."))).
Proof.
  unfold _positive_int. split; [| split].
  - intros n. destruct (int value) as [i|]; [| by split; [| intros [? _]]].
    case_bool_decide as Hi.
    + split; [done |]. intros [[= ->] ?]. lia.
    + split; [intros [= ->]; split; [done | lia] | by intros [[= ->] _]].
  - intros n -> Hn. by rewrite bool_decide_true.
  - by intros ->.
Qed.

(** *** [_format_timedelta] *)

Lemma format_02_two_digits (n : Z) :
  (0 ≤ n < 100)%Z → format_02 n = two_digits n.
Proof.
  intros Hn.
  assert (forallb (λ k, String.eqb (format_02 (Z.of_nat k))
                          (two_digits (Z.of_nat k))) (seq 0 100) = true) as H
    by by vm_compute.
  rewrite forallb_forall in H. specialize (H (Z.to_nat n)).
  rewrite Z2Nat.id in H by lia. apply String.eqb_eq, H, in_seq. lia.
Qed.

(** A whole number of hours [n] that [timedelta] accepts is formatted as the
    number itself, zero-padded to two columns, followed by ":00:00": going
    through days and seconds gives the hours back, also when [n] is 24 or
    more or negative.  Beyond 999999999 days the constructor raises
    [OverflowError]. *)
Theorem format_timedelta_hours (n : Z) :
  _format_timedelta (Hours n)
  = if bool_decide (Z.abs (n `div` 24) ≤ 999999999)%Z
    then Returns (format_02 n +:+ ":00:00")
    else Raises OverflowError.
Proof.
  unfold _format_timedelta, timedelta_of_hours.
  replace ((n * 3600) `div` 86400)%Z with (n `div` 24)%Z
    by (change 86400%Z with (24 * 3600)%Z; by rewrite Z.div_mul_cancel_r).
  case_bool_decide; [| done].
  unfold hours_minutes_seconds. simpl.
  replace ((n * 3600) `mod` 86400)%Z with ((n `mod` 24) * 3600)%Z
    by (change 86400%Z with (24 * 3600)%Z; by rewrite Z.mul_mod_distr_r).
  rewrite Z.div_mul, Z.mod_mul by done.
  replace (n `mod` 24 + n `div` 24 * 24)%Z with n
    by (pose proof (Z.div_mod n 24); lia).
  done.
Qed.

(** For a [timedelta], the three numbers formatted are the whole seconds of
    the duration, [days * 86400 + seconds], cut into hours, minutes below 60
    and seconds below 60; the microseconds are dropped.  The output is the
    hours zero-padded to two columns, a colon, two digits of minutes, a colon
    and two digits of seconds. *)
Theorem format_timedelta_fields (d : timedelta) :
  ∃ h m s,
    hours_minutes_seconds d = (h, m, s)
    ∧ (h * 3600 + m * 60 + s = days d * 86400 + seconds d)%Z
    ∧ (0 ≤ m < 60)%Z ∧ (0 ≤ s < 60)%Z
    ∧ _format_timedelta (Delta d)
      = Returns (format_02 h +:+ ":" +:+ two_digits m +:+ ":" +:+ two_digits s).
Proof.
  exists (seconds d `div` 3600 + days d * 24)%Z,
    ((seconds d `mod` 3600) `div` 60)%Z, ((seconds d `mod` 3600) `mod` 60)%Z.
  split; [reflexivity |].
  pose proof (Z.div_mod (seconds d) 3600 ltac:(done)) as H1.
  pose proof (Z.mod_pos_bound (seconds d) 3600 ltac:(done)) as H2.
  pose proof (Z.div_mod (seconds d `mod` 3600) 60 ltac:(done)) as H3.
  pose proof (Z.mod_pos_bound (seconds d `mod` 3600) 60 ltac:(done)) as H4.
  assert (0 ≤ (seconds d `mod` 3600) `div` 60 < 60)%Z as Hm.
  { split; [apply Z.div_pos; lia |]. apply Z.div_lt_upper_bound; lia. }
  split; [lia |]. split; [done |]. split; [lia |].
  unfold _format_timedelta, hours_minutes_seconds.
  rewrite (format_02_two_digits ((seconds d `mod` 3600) `div` 60)) by lia.
  by rewrite (format_02_two_digits ((seconds d `mod` 3600) `mod` 60)) by lia.
Qed.

(** *** [write_human_readable_statepoint] *)

Lemma append_cons (x : ascii) (a b : string) :
  String x a +:+ b = String x (a +:+ b).
Proof. reflexivity. Qed.

Lemma append_assoc (a b c : string) : (a +:+ b) +:+ c = a +:+ (b +:+ c).
Proof.
  induction a as [|x a IH]; [done |]. rewrite !append_cons. by rewrite IH.
Qed.

Lemma append_empty_r (a : string) : a +:+ EmptyString = a.
Proof.
  induction a as [|x a IH]; [done |]. rewrite append_cons. by rewrite IH.
Qed.

Lemma one_line_empty : one_line EmptyString.
Proof. by intros c. Qed.

Lemma one_line_cons c s :
  one_line (String c s) ↔ is_linebreak c = false ∧ one_line s.
Proof.
  unfold one_line. simpl. split.
  - intros H. split.
    + apply H. by rewrite Ascii.eqb_refl.
    + intros x Hx. apply H. rewrite Hx. by destruct (Ascii.eqb x c).
  - intros [Hc Hs] x. destruct (Ascii.eqb_spec x c) as [-> | _]; [done |].
    apply Hs.
Qed.

Lemma splitlines_nonbreak c s :
  is_linebreak c = false →
  splitlines (String c s)
  = match splitlines s with
    | [] => [String c EmptyString]
    | line :: lines => String c line :: lines
    end.
Proof. intros H. cbn [splitlines]. by rewrite H. Qed.

(** A first line without boundary, then a line feed: [splitlines] gives that
    line and goes on with the rest. *)
Lemma splitlines_line line rest :
  one_line line →
  splitlines (line +:+ newline +:+ rest) = line :: splitlines rest.
Proof.
  induction line as [|c line IH]; intros Hl.
  - by destruct rest.
  - apply one_line_cons in Hl as [Hc Hl].
    rewrite append_cons, splitlines_nonbreak by done.
    by rewrite IH.
Qed.

(** A prefix without boundary joins the first line of what follows. *)
Lemma splitlines_prefix c p rest :
  one_line (String c p) →
  splitlines (String c p +:+ rest)
  = match splitlines rest with
    | [] => [String c p]
    | l :: ls => (String c p +:+ l) :: ls
    end.
Proof.
  revert c. induction p as [|x p IH]; intros c Hl;
    apply one_line_cons in Hl as [Hc Hl].
  - change (String c EmptyString +:+ rest) with (String c rest).
    cbn [splitlines]. rewrite Hc. by destruct (splitlines rest).
  - change (String c (String x p) +:+ rest)
      with (String c (String x p +:+ rest)).
    cbn [splitlines]. rewrite Hc, (IH x Hl).
    by destruct (splitlines rest).
Qed.

(** The lines [splitlines] returns hold no boundary. *)
Lemma splitlines_one_line s : Forall one_line (splitlines s).
Proof.
  remember (String.length s) as n eqn:Hn.
  revert s Hn. induction (lt_wf n) as [n _ IH]. intros s ->.
  destruct s as [|c s]; [constructor |].
  cbn [splitlines]. destruct (is_linebreak c) eqn:Hc.
  - destruct s as [|c' s'].
    + repeat constructor. apply one_line_empty.
    + destruct (Ascii.eqb c "013" && Ascii.eqb c' "010");
        (constructor; [apply one_line_empty |]);
        (eapply IH; [| reflexivity]); simpl; lia.
  - assert (Forall one_line (splitlines s)) as Hs
      by (eapply IH; [| reflexivity]; simpl; lia).
    destruct (splitlines s) as [|l ls].
    + repeat constructor. apply one_line_cons. split; [done |].
      apply one_line_empty.
    + inversion Hs; subst. constructor; [| done].
      by apply one_line_cons.
Qed.

Lemma replace_char_cons old new c s :
  replace_char old new (String c s)
  = if Ascii.eqb c old then new +:+ replace_char old new s
    else String c (replace_char old new s).
Proof. reflexivity. Qed.

(** Replacing a character that is no boundary by a non-empty text without
    boundary does not move the line boundaries. *)
Lemma splitlines_replace_char old n0 nrest s :
  is_linebreak old = false → one_line (String n0 nrest) →
  splitlines (replace_char old (String n0 nrest) s)
  = map (replace_char old (String n0 nrest)) (splitlines s).
Proof.
  intros Hold Hnew. set (new := String n0 nrest) in *.
  remember (String.length s) as n eqn:Hn.
  revert s Hn. induction (lt_wf n) as [n _ IH]. intros s ->.
  destruct s as [|c s]; [done |].
  assert (splitlines (replace_char old new s)
          = map (replace_char old new) (splitlines s)) as IHs
    by (eapply IH; [| reflexivity]; simpl; lia).
  cbn [replace_char splitlines].
  destruct (Ascii.eqb_spec c old) as [-> | Hne].
  - rewrite Hold. unfold new at 1. rewrite splitlines_prefix by done.
    fold new. rewrite IHs. destruct (splitlines s) as [|l ls]; simpl.
    + rewrite Ascii.eqb_refl. by rewrite append_empty_r.
    + by rewrite Ascii.eqb_refl.
  - cbn [splitlines]. destruct (is_linebreak c) eqn:Hc.
    + destruct s as [|c' s']; [done |].
      assert (∃ h t,
                replace_char old new (String c' s') = String h t
                ∧ Ascii.eqb h "010" = Ascii.eqb c' "010"
                ∧ (Ascii.eqb c' "010" = true → t = replace_char old new s'))
        as (h & t & HR & Hh & Ht).
      { rewrite replace_char_cons.
        destruct (Ascii.eqb_spec c' old) as [-> | Hne'].
        - exists n0, (nrest +:+ replace_char old new s').
          split; [done |].
          apply one_line_cons in Hnew as [Hn0 _].
          destruct (Ascii.eqb_spec n0 "010") as [-> | _]; [done |].
          destruct (Ascii.eqb_spec old "010") as [-> | _]; done.
        - by exists c', (replace_char old new s'). }
      rewrite HR in IHs |- *. rewrite Hh.
      destruct (Ascii.eqb c "013" && Ascii.eqb c' "010") eqn:Hcr.
      * apply andb_true_iff in Hcr as [_ Hlf]. rewrite (Ht Hlf).
        cbn [map replace_char]. f_equal.
        eapply IH; [| reflexivity]. simpl. lia.
      * by rewrite IHs.
    + rewrite IHs. destruct (splitlines s) as [|l ls]; simpl.
      * by rewrite (proj2 (Ascii.eqb_neq c old)).
      * by rewrite (proj2 (Ascii.eqb_neq c old)).
Qed.

Lemma splitlines_double_braces text :
  splitlines (double_braces text) = map double_braces (splitlines text).
Proof.
  unfold double_braces.
  rewrite splitlines_replace_char, splitlines_replace_char, map_map; try done.
  - repeat (apply one_line_cons; split; [done |]). apply one_line_empty.
  - repeat (apply one_line_cons; split; [done |]). apply one_line_empty.
Qed.

(** The loop appends the comment block of its lines to the script. *)
Lemma write_lines_run lines script :
  write_lines lines script = (script +:+ comment_block lines, Ok tt).
Proof.
  revert script. induction lines as [|l ls IH]; intros script; simpl.
  - unfold Py.ret. by rewrite append_empty_r.
  - unfold bind, script_write, modify. rewrite IH.
    by rewrite !append_assoc.
Qed.

Lemma splitlines_comment_block lines :
  Forall one_line lines →
  splitlines (comment_block lines) = map (String.append "# ") lines.
Proof.
  induction 1 as [|l ls Hl _ IH]; [done |].
  cbn [comment_block map].
  change ("# " +:+ l +:+ newline +:+ comment_block ls)
    with (("# " +:+ l) +:+ newline +:+ comment_block ls).
  rewrite splitlines_line, IH; [done |].
  repeat (apply one_line_cons; split; [done |]). done.
Qed.

(** [write_human_readable_statepoint] appends to the script a text that,
    read back line by line, is "# Statepoint:", "#", and then, for each
    line of the JSON dump of the state point (indent 2), "# " followed by
    that line with every brace doubled.  Every line written is a comment. *)
Theorem statepoint_written_as_comments
    (json_dumps : dump_options → json → string) (job : StatepointJob)
    (script : string) :
  let dump :=
    json_dumps {| indent := Some 2; sort_keys := false |} (statepoint job) in
  ∃ text,
    write_human_readable_statepoint json_dumps job script
    = (script +:+ text, Ok tt)
    ∧ splitlines text
      = "# Statepoint:" :: "#"
        :: map (λ line, "# " +:+ double_braces line) (splitlines dump)
    ∧ Forall is_comment (splitlines text).
Proof.
  intros dump.
  exists ("# Statepoint:" +:+ newline +:+ "#" +:+ newline
          +:+ comment_block (splitlines (double_braces dump))).
  assert (splitlines ("# Statepoint:" +:+ newline +:+ "#" +:+ newline
                      +:+ comment_block (splitlines (double_braces dump)))
          = "# Statepoint:" :: "#"
            :: map (λ line, "# " +:+ double_braces line) (splitlines dump))
    as Hlines.
  { rewrite splitlines_line
      by (repeat (apply one_line_cons; split; [done |]); apply one_line_empty).
    rewrite splitlines_line
      by (repeat (apply one_line_cons; split; [done |]); apply one_line_empty).
    rewrite splitlines_comment_block by apply splitlines_one_line.
    by rewrite splitlines_double_braces, map_map. }
  split; [| split; [done |]].
  - unfold write_human_readable_statepoint, bind, script_write, modify.
    fold dump. fold (double_braces dump). rewrite write_lines_run.
    by rewrite !append_assoc.
  - rewrite Hlines. repeat (constructor; [by eexists |]).
    apply Forall_map, Forall_true. intros line. by eexists.
Qed.

End MiscToolsSpec.
